(** * Treasury monitor: reward deltas, transfer classification, cache and paginated fetch

    A shallow embedding of [streamlit_complete_app.py] (vault reward deltas and
    alert tiering) and [transaction_fetcher.py] (transfer classification, the
    on-disk cache and the paginated fetch).

    Numbers.  Python's [float] values are modelled by exact rationals ([Q]):
    rounding, overflow, infinities and NaN are outside the model.  Equality of
    computed amounts is therefore stated with [==] ([Qeq]).  Python's [int]
    values are [Z].

    Dictionaries are stdpp [gmap]s with string keys; JSON payloads are typed
    records whose optional fields are the ones the code reads with
    [.get(key, default)].

    Effects.  The fetcher runs in a monad of state (the cache file and the
    number of requests made to the vault API), exceptions and a log of the
    requests, cache writes and progress messages it issues.  The two APIs
    and the clock are a parameter, [World].  The cache file is modelled by
    its decoded content: [json.dump] and [json.load] are taken to be inverse
    on it, and failures of the file system are outside the model. *)

From Stdlib Require Import QArith Qabs Qpower.
From stdpp Require Import gmap strings list fin_maps.
From Stdlib Require Import Ascii String.

Local Open Scope Z_scope.

(** ** Numeric helpers *)

(** Python's [10 ** d] for an integer [d]: an integer power for [d >= 0],
    the reciprocal for [d < 0]. *)
Definition pow10 (d : Z) : Q := Qpower (10 # 1) d.

(** [x > y] and [x < y] on numbers, as booleans. *)
Definition Qgtb (x y : Q) : bool := negb (Qle_bool x y).
Definition Qltb (x y : Q) : bool := negb (Qle_bool y x).

(** ** Strings *)

Definition is_upper (c : ascii) : bool :=
  let n := nat_of_ascii c in ((65 <=? n) && (n <=? 90))%nat.
Definition is_lower (c : ascii) : bool :=
  let n := nat_of_ascii c in ((97 <=? n) && (n <=? 122))%nat.
Definition to_upper (c : ascii) : ascii :=
  if is_lower c then ascii_of_nat (nat_of_ascii c - 32) else c.
Definition to_lower (c : ascii) : ascii :=
  if is_upper c then ascii_of_nat (nat_of_ascii c + 32) else c.

(** Python's [str.title()] on ASCII text: a cased character that follows an
    uncased one is upper-cased, every other cased character is lower-cased. *)
Fixpoint title_from (prev_cased : bool) (s : string) : string :=
  match s with
  | EmptyString => EmptyString
  | String c rest =>
      let cased := is_upper c || is_lower c in
      String (if prev_cased then to_lower c else to_upper c)
             (title_from cased rest)
  end.
Definition title (s : string) : string := title_from false s.

(** [x in xs] for a list literal of strings. *)
Definition str_in (x : string) (xs : list string) : bool :=
  existsb (String.eqb x) xs.

(** * Vault and lending reward deltas ([streamlit_complete_app.py]) *)

Module Dashboard.

Record MappingInfo := { mi_team : string; mi_type : string }.

Definition VAULT_MAPPING : gmap string MappingInfo :=
  list_to_map
    [ ("WSOL/USDC", {| mi_team := "Fluid Team"; mi_type := "supply" |});
      ("WSOL/USDT", {| mi_team := "Fluid Team"; mi_type := "supply" |});
      ("WSOL/USDG", {| mi_team := "Fluid Team"; mi_type := "supply" |});
      ("WSOL/EURC", {| mi_team := "Fluid Team"; mi_type := "supply" |});
      ("WSOL/USDS", {| mi_team := "Fluid Team"; mi_type := "supply" |});
      ("WSOL/cbBTC", {| mi_team := "Fluid Team"; mi_type := "supply" |});
      ("WSOL/xBTC", {| mi_team := "Fluid Team"; mi_type := "supply" |});
      ("syrupUSDC/USDC", {| mi_team := "Jup + Maple"; mi_type := "borrow" |});
      ("JUPSOL/USDG", {| mi_team := "USDG Team"; mi_type := "borrow" |});
      ("xBTC/USDG", {| mi_team := "USDG Team"; mi_type := "borrow" |});
      ("JitoSOL/USDG", {| mi_team := "Jito + USDG"; mi_type := "borrow" |});
      ("syrupUSDC/USDG", {| mi_team := "Maple + USDG"; mi_type := "borrow" |});
      ("LBTC/USDG", {| mi_team := "Lombard + USDG"; mi_type := "borrow" |});
      ("INF/SOL", {| mi_team := "Sanctum"; mi_type := "borrow" |});
      ("PST/USDC", {| mi_team := "PST Team"; mi_type := "borrow" |});
      ("LBTC/USDC", {| mi_team := "Lombard + Fluid"; mi_type := "borrow" |}) ].


(** One asset of a vault or lending snapshot.  [price] is the value
    [float(token['price'])] evaluates to. *)
Record Token := {
  symbol : string;
  name : string;
  decimals : Z;
  price : Q
}.

(** A vault snapshot; the four magnitudes are the values [float(...)] yields
    for them. *)
Record Vault := {
  id : Z;
  supplyToken : Token;
  borrowToken : Token;
  totalSupply : Q;
  totalSupplyLiquidity : Q;
  totalBorrow : Q;
  totalBorrowLiquidity : Q
}.

(** A row of the vault data frame (column names in comments). *)
Record VaultRow := {
  Vault_ID : Z;                 (* 'Vault ID' *)
  Vault_Pair : string;          (* 'Vault Pair' *)
  Supply_Token : string;        (* 'Supply Token' *)
  Borrow_Token : string;        (* 'Borrow Token' *)
  Supply_Delta_Amount : Q;      (* 'Supply Delta Amount' *)
  Supply_Delta_USD : Q;         (* 'Supply Delta USD' *)
  Borrow_Delta_Amount : Q;      (* 'Borrow Delta Amount' *)
  Borrow_Delta_USD : Q;         (* 'Borrow Delta USD' *)
  Responsible_Party : string;   (* 'Responsible Party' *)
  Incentive_Type : string;      (* 'Incentive Type' *)
  Supply_Token_Price : Q;       (* 'Supply Token Price' *)
  Borrow_Token_Price : Q        (* 'Borrow Token Price' *)
}.

Local Open Scope Q_scope.

(** The four quantities computed at the top of the loop body of
    [process_vault_data]. *)
Definition supply_delta_amount (vault : Vault) : Q :=
  (totalSupply vault - totalSupplyLiquidity vault)
  / pow10 (decimals (supplyToken vault)).
Definition supply_delta_usd (vault : Vault) : Q :=
  supply_delta_amount vault * price (supplyToken vault).
Definition borrow_delta_amount (vault : Vault) : Q :=
  (totalBorrow vault - totalBorrowLiquidity vault)
  / pow10 (decimals (borrowToken vault)).
Definition borrow_delta_usd (vault : Vault) : Q :=
  borrow_delta_amount vault * price (borrowToken vault).

(** The guard of the [rows.append]. *)
Definition vault_above_floor (vault : Vault) : bool :=
  Qgtb (Qabs (supply_delta_usd vault)) 100
  || Qgtb (Qabs (borrow_delta_usd vault)) 100.

Definition vault_row (vault : Vault) : VaultRow :=
  let supply_token := symbol (supplyToken vault) in
  let borrow_token := symbol (borrowToken vault) in
  let vault_pair := (supply_token ++ "/" ++ borrow_token)%string in
  let vault_info :=
    default {| mi_team := "Unknown"; mi_type := "unknown" |}
            (VAULT_MAPPING !! vault_pair) in
  {| Vault_ID := id vault;
     Vault_Pair := vault_pair;
     Supply_Token := supply_token;
     Borrow_Token := borrow_token;
     Supply_Delta_Amount := supply_delta_amount vault;
     Supply_Delta_USD := supply_delta_usd vault;
     Borrow_Delta_Amount := borrow_delta_amount vault;
     Borrow_Delta_USD := borrow_delta_usd vault;
     Responsible_Party := mi_team vault_info;
     Incentive_Type := title (mi_type vault_info);
     Supply_Token_Price := price (supplyToken vault);
     Borrow_Token_Price := price (borrowToken vault) |}.

Fixpoint process_vault_data (vaults : list Vault) : list VaultRow :=
  match vaults with
  | [] => []
  | vault :: rest =>
      if vault_above_floor vault
      then vault_row vault :: process_vault_data rest
      else process_vault_data rest
  end.

(** A lending snapshot; [liquiditySupplyData_supply] is
    [token['liquiditySupplyData']['supply']]. *)
Record Lending := {
  l_id : Z;
  asset : Token;
  totalAssets : Q;
  liquiditySupplyData_supply : Q
}.

Record LendingRow := {
  Lending_ID : Z;
  Token_ : string;               (* 'Token' *)
  Token_Name : string;
  Rewards_Amount : Q;
  Rewards_USD : Q;
  L_Responsible_Party : string;  (* 'Responsible Party' *)
  Token_Price : Q;
  Total_Assets : Q;
  Liquidity_Supply : Q
}.

Definition rewards_amount (token : Lending) : Q :=
  (totalAssets token - liquiditySupplyData_supply token)
  / pow10 (decimals (asset token)).



(** *** Rebalancing priorities (the Analytics tab) *)

Record Priority := {
  p_Type : string;       (* 'Type' *)
  p_Item : string;       (* 'Item' *)
  p_Amount_USD : Q;      (* 'Amount USD' *)
  p_Team : string;       (* 'Team' *)
  p_Priority : string    (* 'Priority' *)
}.

(** The two [if]s of the loop over [vault_df.iterrows()]. *)
Definition vault_supply_priority (row : VaultRow) : list Priority :=
  if Qgtb (Supply_Delta_USD row) 100000
  then [ {| p_Type := "Vault Supply";
            p_Item := Vault_Pair row;
            p_Amount_USD := Supply_Delta_USD row;
            p_Team := Responsible_Party row;
            p_Priority := if Qgtb (Supply_Delta_USD row) 300000
                          then "High" else "Medium" |} ]
  else [].

Definition vault_borrow_priority (row : VaultRow) : list Priority :=
  if Qgtb (Qabs (Borrow_Delta_USD row)) 50000
  then [ {| p_Type := "Vault Borrow";
            p_Item := Vault_Pair row;
            p_Amount_USD := Qabs (Borrow_Delta_USD row);
            p_Team := Responsible_Party row;
            p_Priority := if Qgtb (Qabs (Borrow_Delta_USD row)) 100000
                          then "High" else "Medium" |} ]
  else [].

Definition lending_priority (row : LendingRow) : list Priority :=
  if Qgtb (Rewards_USD row) 100000
  then [ {| p_Type := "Lending";
            p_Item := Token_ row;
            p_Amount_USD := Rewards_USD row;
            p_Team := L_Responsible_Party row;
            p_Priority := if Qgtb (Rewards_USD row) 300000
                          then "High" else "Medium" |} ]
  else [].

(** The list [priorities] as it stands before it is sorted for display. *)
Definition priorities (vault_df : list VaultRow) (lending_df : list LendingRow)
  : list Priority :=
  flat_map (fun row => vault_supply_priority row ++ vault_borrow_priority row)
           vault_df
  ++ flat_map lending_priority lending_df.

End Dashboard.

(** * Timestamps

    A model of [datetime.isoformat] and [datetime.fromisoformat] of Python's
    standard library (not part of the repository), for the text format
    [isoformat] emits: [YYYY-MM-DD], one separator character,
    [HH[:MM[:SS[.fff[fff]]]]] and an optional UTC offset
    [+HH:MM[:SS[.ffffff]]] or [-HH:MM[:SS[.ffffff]]].  On other texts Python
    versions differ; the parser follows the reference implementation of
    Python 3.7 to 3.10, with digits read strictly. *)

Module PyDatetime.

(** A [datetime] object.  [tzinfo] is [None] for a naive value and
    [Some off] for a fixed-offset [timezone], [off] being the UTC offset in
    microseconds. *)
Record datetime := {
  year : Z; month : Z; day : Z;
  hour : Z; minute : Z; second : Z; microsecond : Z;
  tzinfo : option Z
}.

Definition is_leap (y : Z) : bool :=
  (y mod 4 =? 0) && (negb (y mod 100 =? 0) || (y mod 400 =? 0)).

Definition days_in_month (y m : Z) : Z :=
  if m =? 2 then (if is_leap y then 29 else 28)
  else if (m =? 4) || (m =? 6) || (m =? 9) || (m =? 11) then 30
  else 31.

Definition in_range (lo x hi : Z) : bool := (lo <=? x) && (x <=? hi).

(** The range checks of the [datetime] and [timezone] constructors. *)
Definition valid (dt : datetime) : bool :=
  in_range 1 (year dt) 9999 && in_range 1 (month dt) 12
  && in_range 1 (day dt) (days_in_month (year dt) (month dt))
  && in_range 0 (hour dt) 23 && in_range 0 (minute dt) 59
  && in_range 0 (second dt) 59 && in_range 0 (microsecond dt) 999999
  && match tzinfo dt with
     | None => true
     | Some off => (-86400000000 <? off) && (off <? 86400000000)
     end.

(** The constructor: [None] stands for the [ValueError] it raises. *)
Definition new_datetime (y mo d h mi s us : Z) (tz : option Z)
  : option datetime :=
  let dt := {| year := y; month := mo; day := d; hour := h; minute := mi;
               second := s; microsecond := us; tzinfo := tz |} in
  if valid dt then Some dt else None.

(** *** Printing *)

Definition digit_char (n : Z) : ascii :=
  ascii_of_nat (48 + Z.to_nat (n mod 10)).

(** ["%0kd" % n] for [0 <= n < 10^k]. *)
Fixpoint pad (k : nat) (n : Z) : list ascii :=
  match k with
  | O => []
  | S k' => pad k' (n / 10) ++ [digit_char n]
  end.

Definition hh_of (a : Z) : Z := a / 3600000000.
Definition mm_of (a : Z) : Z := (a mod 3600000000) / 60000000.
Definition ss_of (a : Z) : Z := (a mod 60000000) / 1000000.
Definition us_of (a : Z) : Z := a mod 1000000.

(** The fractional part: nothing when the microseconds are zero. *)
Definition fraction_chars (us : Z) : list ascii :=
  if us =? 0 then [] else "."%char :: pad 6 us.

(** [_format_time] with the default [timespec]. *)
Definition format_time (hh mm ss us : Z) : list ascii :=
  pad 2 hh ++ ":"%char :: pad 2 mm ++ ":"%char :: pad 2 ss
    ++ fraction_chars us.

(** [_format_offset]: the text after the sign. *)
Definition format_offset_abs (a : Z) : list ascii :=
  pad 2 (hh_of a) ++ ":"%char :: pad 2 (mm_of a)
    ++ (if (ss_of a =? 0) && (us_of a =? 0) then []
        else ":"%char :: pad 2 (ss_of a)
             ++ fraction_chars (us_of a)).

Definition format_offset (tz : option Z) : list ascii :=
  match tz with
  | None => []
  | Some off =>
      (if off <? 0 then "-"%char else "+"%char)
        :: format_offset_abs (Z.abs off)
  end.

Definition isoformat_chars (dt : datetime) : list ascii :=
  pad 4 (year dt) ++ "-"%char :: pad 2 (month dt) ++ "-"%char
    :: pad 2 (day dt) ++ "T"%char
    :: (format_time (hour dt) (minute dt) (second dt) (microsecond dt)
        ++ format_offset (tzinfo dt)).

Definition isoformat (dt : datetime) : string :=
  string_of_list_ascii (isoformat_chars dt).

(** *** Parsing *)

Definition digit_val (c : ascii) : option Z :=
  let n := Z.of_nat (nat_of_ascii c) in
  if in_range 48 n 57 then Some (n - 48) else None.

(** Read exactly [k] decimal digits. *)
Fixpoint parse_digits (k : nat) (acc : Z) (l : list ascii)
  : option (Z * list ascii) :=
  match k with
  | O => Some (acc, l)
  | S k' =>
      match l with
      | c :: l' => d ← digit_val c; parse_digits k' (acc * 10 + d) l'
      | [] => None
      end
  end.

Definition expect (c : ascii) (l : list ascii) : option (list ascii) :=
  match l with
  | c' :: l' => if Ascii.eqb c' c then Some l' else None
  | [] => None
  end.

(** [.fff] or [.ffffff], to the end of the text. *)
Definition parse_fraction (l : list ascii) : option Z :=
  if (List.length l =? 3)%nat then
    '(us, l') ← parse_digits 3 0 l; Some (us * 1000)
  else if (List.length l =? 6)%nat then
    '(us, l') ← parse_digits 6 0 l; Some us
  else None.

(** [_parse_hh_mm_ss_ff]: the whole text must be [HH[:MM[:SS[.fff[fff]]]]]. *)
Definition parse_hh_mm_ss_ff (l : list ascii) : option (Z * Z * Z * Z) :=
  '(hh, l) ← parse_digits 2 0 l;
  match l with
  | [] => Some (hh, 0, 0, 0)
  | _ =>
    l ← expect ":" l;
    '(mm, l) ← parse_digits 2 0 l;
    match l with
    | [] => Some (hh, mm, 0, 0)
    | _ =>
      l ← expect ":" l;
      '(ss, l) ← parse_digits 2 0 l;
      match l with
      | [] => Some (hh, mm, ss, 0)
      | _ => l ← expect "." l; us ← parse_fraction l; Some (hh, mm, ss, us)
      end
    end
  end.

Definition is_sign (c : ascii) : bool := Ascii.eqb c "+" || Ascii.eqb c "-".

(** Split the time text at the first sign character: the text before it and,
    when there is one, whether it is a minus and the text after it. *)
Fixpoint split_tz (l : list ascii)
  : list ascii * option (bool * list ascii) :=
  match l with
  | [] => ([], None)
  | c :: l' =>
      if is_sign c then ([], Some (Ascii.eqb c "-", l'))
      else let '(t, z) := split_tz l' in (c :: t, z)
  end.

(** The offset text: [HH:MM], [HH:MM:SS] or [HH:MM:SS.ffffff]. *)
Definition parse_tz (z : option (bool * list ascii)) : option (option Z) :=
  match z with
  | None => Some None
  | Some (neg, tzstr) =>
      let n := List.length tzstr in
      if (n =? 5)%nat || (n =? 8)%nat || (n =? 15)%nat then
        '(hh, mm, ss, us) ← parse_hh_mm_ss_ff tzstr;
        let td := hh * 3600000000 + mm * 60000000 + ss * 1000000 + us in
        Some (Some (if neg then - td else td))
      else None
  end.

(** [_parse_isoformat_time]. *)
Definition parse_isoformat_time (tstr : list ascii)
  : option (Z * Z * Z * Z * option Z) :=
  if (List.length tstr <? 2)%nat then None else
  let '(timestr, z) := split_tz tstr in
  '(hh, mm, ss, us) ← parse_hh_mm_ss_ff timestr;
  tz ← parse_tz z;
  Some (hh, mm, ss, us, tz).

(** [_parse_isoformat_date]. *)
Definition parse_isoformat_date (l : list ascii)
  : option (Z * Z * Z * list ascii) :=
  '(y, l) ← parse_digits 4 0 l;
  l ← expect "-" l;
  '(mo, l) ← parse_digits 2 0 l;
  l ← expect "-" l;
  '(d, l) ← parse_digits 2 0 l;
  Some (y, mo, d, l).

(** [datetime.fromisoformat]; [None] stands for the [ValueError]. *)
Definition fromisoformat (date_string : string) : option datetime :=
  '(y, mo, d, l) ← parse_isoformat_date (list_ascii_of_string date_string);
  match l with
  | [] => new_datetime y mo d 0 0 0 0 None
  | _sep :: tstr =>
      match tstr with
      | [] => new_datetime y mo d 0 0 0 0 None
      | _ =>
        '(hh, mm, ss, us, tz) ← parse_isoformat_time tstr;
        new_datetime y mo d hh mm ss us tz
      end
  end.

End PyDatetime.

(** * Transfer history ([transaction_fetcher.py]) *)

Module Fetcher.
Import PyDatetime.

Definition MIN_VALUE_USD : Q := 1000 # 1.

Definition ADDRESS_TAGS : gmap string string :=
  list_to_map
    [ ("5AZYLkiU4SPYDeRMcPbPRPmiz2Ny85jWFeV4xmQsVBNo", "Fluid Team");
      ("HUBLSmfDxXxxzgg4KM6Q5onHVwBG5KeKjeA2BnvE5D9r", "Fluid Team");
      ("7b1zZUuae2F56e66GqpkKe1Tq1BK2ePRRuGGr8ahe2JB", "JUP Team");
      ("FH9bgRZrEGFA1d4859wSBdNnHgtU5ZDqFUPccHDnYQ3p", "Maple");
      ("DVBfCpHoAtVgcVLFHyUgXaWg5ZaKU8CkekXu23ZD4iod", "Gauntlet");
      ("fr6yQkDmWy6R6pecbUsxXaw6EvRJznZ2HsK5frQgud8", "USDG Team");
      ("8sjM83a4u2M8YZYshLGKzYxh1VHFfbgtaytwaoEg4bUJ", "Jito Team");
      ("8JmDPG5BFQ6gpUPJV9xBixYJLqTKCSNotkXksTmNsQfj", "Sky Team");
      ("62SJTxjWbyaPei1HPW9mFX7KMYCEp7Z9zwiL4hGa8WQv", "LBTC Team");
      ("EeQmNqm1RcQnee8LTyx6ccVG9FnR8TezQuw2JXq2LC1T", "Sanctum INF Team");
      ("41zCUJsKk6cMB94DDtm99qWmyMZfp4GkAhhuz4xTwePu", "PST Team");
      ("JANAjsZKJhtHF9PUF8cwjVp5oQjdcHYiGiFgc8TWQjp2", "Binance Campaign");
      ("3ssDYFbTpACkshGeYHMBovxB4aE2G6fbZNeVChi85J1k", "Binance Campaign");
      ("7s1da8DduuBFqGra5bJBjpnvL5E9mGzCuMk1Qkh4or2Z", "Liquidity Layer") ].

(** ** Payloads *)

(** One item of a transfer page.  A field is [None] when the key is absent,
    which is when the code's [.get(key, default)] falls back. *)
Record Transfer := {
  r_flow : option string;
  r_from_address : option string;
  r_to_address : option string;
  r_token_address : option string;
  r_amount : option Q;
  r_token_decimals : option Z;
  r_value : option Q;
  r_time : option string;
  r_trans_id : option string;
  r_block_id : option Z
}.

Record TokenInfo := { token_symbol : option string }.
Record Metadata := { tokens : option (gmap string TokenInfo) }.

(** The envelope of a transfer page. *)
Record Envelope := {
  e_success : option bool;
  e_data : option (list Transfer);
  e_metadata : option Metadata
}.

(** What the request for a page comes to: an exception of [requests.get],
    [raise_for_status] or [response.json()] with its text, or the decoded
    envelope. *)
Inductive SolscanResponse :=
| SolscanError (msg : string)
| SolscanJson (result : Envelope).

(** The vault list as [get_sol_price] reads it. *)
Record PriceToken := { pt_symbol : option string; pt_price : option Q }.
Record PriceVault := { pv_supplyToken : option PriceToken }.
Inductive VaultResponse :=
| VaultError
| VaultJson (vaults : list PriceVault).

(** A processed transaction.  [TS] is the type of the ['timestamp'] entry:
    a [datetime] in memory, its ISO text in the cache file. *)
Record Tx (TS : Type) := {
  signature : string;
  timestamp : TS;
  type_ : string;          (* 'type' *)
  token : string;
  amount : Q;
  value_usd : Q;
  counterparty : string;
  team : string;
  block_id : Z
}.
Arguments signature {TS} _.
Arguments timestamp {TS} _.
Arguments type_ {TS} _.
Arguments token {TS} _.
Arguments amount {TS} _.
Arguments value_usd {TS} _.
Arguments counterparty {TS} _.
Arguments team {TS} _.
Arguments block_id {TS} _.

Definition Transaction := Tx datetime.

(** [tx_copy = tx.copy(); tx_copy['timestamp'] = ts]. *)
Definition set_timestamp {A B} (ts : B) (tx : Tx A) : Tx B :=
  {| signature := signature tx; timestamp := ts; type_ := type_ tx;
     token := token tx; amount := amount tx; value_usd := value_usd tx;
     counterparty := counterparty tx; team := team tx;
     block_id := block_id tx |}.

(** The decoded content of the cache file. *)
Record CacheData := {
  last_updated : string;
  transactions : list (Tx string)
}.

(** The cache file: missing, present but not decodable into [CacheData]
    ([json.load] or a key lookup fails), or holding [CacheData]. *)
Inductive File :=
| NoFile
| Unreadable
| Stored (cache_data : CacheData).

(** ** The environment and the effects *)

Record World := {
  SOLSCAN_API_KEY : option string;
  (** the response to the request for a page of a page size *)
  solscan_api : Z -> Z -> SolscanResponse;
  (** the response to the n-th request to the vault API *)
  vault_api : nat -> VaultResponse;
  (** [datetime.now()] *)
  now : datetime
}.

Record State := {
  cache_file : File;
  vault_calls : nat
}.

Inductive Message :=
| MsgLoaded (n : nat) (updated : option string)
| MsgFetching
| MsgPage (page max_pages : Z)
| MsgFetched (n : nat)
| MsgError (error_msg : string).

Inductive Event :=
| SolscanGet (page page_size : Z)
| VaultGet
| CacheWrite (cache_data : CacheData)
| Progress (msg : Message).

(** The outcome of a computation: a value, or an exception with [str(e)]. *)
Inductive Res (A : Type) :=
| Ok (a : A)
| Raise (msg : string).
Arguments Ok {A} _.
Arguments Raise {A} _.

(** State, exceptions and the log of effects. *)
Definition M (A : Type) : Type := State -> Res A * State * list Event.

Definition ret {A} (a : A) : M A := fun st => (Ok a, st, []).
Definition bind {A B} (m : M A) (f : A -> M B) : M B :=
  fun st =>
    match m st with
    | (Ok a, st', ev) =>
        let '(r, st'', ev') := f a st' in (r, st'', ev ++ ev')
    | (Raise e, st', ev) => (Raise e, st', ev)
    end.
Definition raise {A} (msg : string) : M A := fun st => (Raise msg, st, []).
Definition emit (e : Event) : M unit := fun st => (Ok tt, st, [e]).
Definition get_state : M State := fun st => (Ok st, st, []).
Definition put_state (st : State) : M unit := fun _ => (Ok tt, st, []).
Definition lift {A} (r : Res A) : M A := fun st => (r, st, []).

(** [try: body except Exception as e: handler(str(e))]. *)
Definition try_except {A} (body : M A) (handler : string -> M A) : M A :=
  fun st =>
    match body st with
    | (Ok a, st', ev) => (Ok a, st', ev)
    | (Raise e, st', ev) =>
        let '(r, st'', ev') := handler e st' in (r, st'', ev ++ ev')
    end.

#[global] Instance M_ret : MRet M := @ret.
#[global] Instance M_bind : MBind M := fun A B f m => bind m f.

Section Program.
Variable W : World.

(** ** [get_sol_price] *)

Fixpoint wsol_price (vaults : list PriceVault) : Q :=
  match vaults with
  | [] => 150 # 1
  | vault :: rest =>
      let sym := st ← pv_supplyToken vault; pt_symbol st in
      if bool_decide (sym = Some "WSOL"%string) then
        match st ← pv_supplyToken vault; pt_price st with
        | Some price => price
        | None => 150 # 1          (* the [except] branch *)
        end
      else wsol_price rest
  end.

Definition get_sol_price : M Q :=
  st ← get_state;
  emit VaultGet;;
  put_state {| cache_file := cache_file st;
               vault_calls := S (vault_calls st) |};;
  match vault_api W (vault_calls st) with
  | VaultError => ret (150 # 1)
  | VaultJson vaults => ret (wsol_price vaults)
  end.

(** ** [load_from_cache], [save_to_cache], [clear_cache] *)

Fixpoint parse_timestamps (txs : list (Tx string))
  : option (list Transaction) :=
  match txs with
  | [] => Some []
  | tx :: rest =>
      ts ← fromisoformat (timestamp tx);
      rest' ← parse_timestamps rest;
      Some (set_timestamp ts tx :: rest')
  end.

(** The pair [load_from_cache] returns for a given file. *)
Definition read_cache (f : File)
  : option (list Transaction) * option string :=
  match f with
  | NoFile => (None, None)
  | Unreadable => (None, None)
  | Stored cache_data =>
      match parse_timestamps (transactions cache_data) with
      | Some txs => (Some txs, Some (last_updated cache_data))
      | None => (None, None)
      end
  end.

Definition load_from_cache
  : M (option (list Transaction) * option string) :=
  st ← get_state; ret (read_cache (cache_file st)).

Definition serialize (txs : list Transaction) : list (Tx string) :=
  map (fun tx => set_timestamp (isoformat (timestamp tx)) tx) txs.

Definition save_to_cache (txs : list Transaction) : M unit :=
  let cache_data := {| last_updated := isoformat (now W);
                       transactions := serialize txs |} in
  st ← get_state;
  emit (CacheWrite cache_data);;
  put_state {| cache_file := Stored cache_data;
               vault_calls := vault_calls st |}.

Definition clear_cache : M bool :=
  st ← get_state;
  match cache_file st with
  | NoFile => ret false
  | _ => put_state {| cache_file := NoFile;
                      vault_calls := vault_calls st |};; ret true
  end.

(** ** [fetch_from_solscan] *)

Definition no_metadata : Metadata := {| tokens := None |}.

Definition fetch_from_solscan (page page_size : Z)
  : M (list Transfer * Metadata * bool * option string) :=
  match SOLSCAN_API_KEY W with
  | None | Some EmptyString =>
      ret ([], no_metadata, false,
           Some "SOLSCAN_API_KEY not found in environment variables"%string)
  | Some _ =>
      emit (SolscanGet page page_size);;
      match solscan_api W page page_size with
      | SolscanError msg => ret ([], no_metadata, false, Some msg)
      | SolscanJson result =>
          if negb (default false (e_success result)) then
            ret ([], no_metadata, false,
                 Some "API returned success=false"%string)
          else
            ret (default [] (e_data result),
                 default no_metadata (e_metadata result), true, None)
      end
  end.

(** ** [process_transactions] *)

(** [s.replace('Z', '+00:00')]. *)
Fixpoint replace_Z (s : string) : string :=
  match s with
  | EmptyString => EmptyString
  | String c rest =>
      if Ascii.eqb c "Z" then ("+00:00" ++ replace_Z rest)%string
      else String c (replace_Z rest)
  end.

(** [repr] of a text without quotes or escapes. *)
Definition repr (s : string) : string := ("'" ++ s ++ "'")%string.

Definition tx_flow (tx : Transfer) : string := default ""%string (r_flow tx).

Definition tx_counterparty (tx : Transfer) : string :=
  if String.eqb (tx_flow tx) "in"
  then default ""%string (r_from_address tx)
  else default ""%string (r_to_address tx).

Definition tx_token_symbol (tokens_meta : gmap string TokenInfo)
  (tx : Transfer) : string :=
  let token_address := default ""%string (r_token_address tx) in
  match tokens_meta !! token_address with
  | Some token_info => default "UNKNOWN"%string (token_symbol token_info)
  | None => "UNKNOWN"%string
  end.

Definition tx_amount (tx : Transfer) : Q :=
  (default 0 (r_amount tx) / pow10 (default 6%Z (r_token_decimals tx)))%Q.

Definition tx_value_usd (sol_price : Q) (tokens_meta : gmap string TokenInfo)
  (tx : Transfer) : Q :=
  let token_symbol := tx_token_symbol tokens_meta tx in
  if str_in token_symbol ["USDC"; "USDT"; "USDS"; "USDG"; "EURC"]%string then
    (tx_amount tx * 1)%Q
  else if str_in token_symbol ["SOL"; "WSOL"]%string then
    (tx_amount tx * sol_price)%Q
  else
    default 0%Q (r_value tx).

(** The loop over [raw_data].  A time that does not parse raises
    [ValueError]; the text modelled is the one for a malformed time (a
    well-formed time with a field out of range has a text of its own in
    Python, naming the field). *)
Fixpoint process_loop (sol_price : Q) (tokens_meta : gmap string TokenInfo)
  (raw_data : list Transfer) : Res (list Transaction) :=
  match raw_data with
  | [] => Ok []
  | tx :: rest =>
      let value_usd := tx_value_usd sol_price tokens_meta tx in
      if Qltb value_usd MIN_VALUE_USD then
        process_loop sol_price tokens_meta rest        (* [continue] *)
      else
        let time := replace_Z (default ""%string (r_time tx)) in
        match fromisoformat time with
        | None =>
            Raise ("Invalid isoformat string: " ++ repr time)%string
        | Some timestamp =>
            match process_loop sol_price tokens_meta rest with
            | Raise e => Raise e
            | Ok processed =>
                Ok ({| signature := default ""%string (r_trans_id tx);
                       timestamp := timestamp;
                       type_ := if String.eqb (tx_flow tx) "in"
                                then "Inflow"%string else "Outflow"%string;
                       token := tx_token_symbol tokens_meta tx;
                       amount := tx_amount tx;
                       value_usd := value_usd;
                       counterparty := tx_counterparty tx;
                       team := default "Unknown"%string
                                 (ADDRESS_TAGS !! tx_counterparty tx);
                       block_id := default 0%Z (r_block_id tx) |}
                    :: processed)
            end
        end
  end.

Definition process_transactions (raw_data : list Transfer)
  (metadata : Metadata) : M (list Transaction) :=
  let tokens_meta := default ∅ (tokens metadata) in
  sol_price ← get_sol_price;
  lift (process_loop sol_price tokens_meta raw_data).

(** ** [fetch_all_transactions] *)

(** [range(lo, hi)]. *)
Definition range (lo hi : Z) : list Z :=
  map (fun i => lo + Z.of_nat i) (seq 0 (Z.to_nat (hi - lo))).

(** [if progress_callback: progress_callback(msg)]. *)
Definition progress (progress_callback : bool) (msg : Message) : M unit :=
  if progress_callback then emit (Progress msg) else ret tt.

Definition Result : Type := list Transaction * bool * option string.

(** The [for page in ...] loop; [inl] is the [return] from inside it,
    [inr] the value of [all_transactions] when the loop is left. *)
Fixpoint fetch_pages (progress_callback : bool) (max_pages : Z)
  (pages : list Z) (all_transactions : list Transaction)
  : M (Result + list Transaction) :=
  match pages with
  | [] => ret (inr all_transactions)
  | page :: rest =>
      progress progress_callback (MsgPage page max_pages);;
      r ← fetch_from_solscan page 40;
      let '(raw_data, metadata, success, error) := r in
      if negb success then ret (inl ([], false, error))
      else
        match raw_data with
        | [] => ret (inr all_transactions)               (* [break] *)
        | _ =>
            processed ← process_transactions raw_data metadata;
            fetch_pages progress_callback max_pages rest
                        (all_transactions ++ processed)
        end
  end.

Definition fetch_body (progress_callback : bool) (max_pages : Z) : M Result :=
  c ← load_from_cache;
  let '(cached, last_updated) := c in
  match cached with
  | Some (tx :: txs) =>
      progress progress_callback
        (MsgLoaded (List.length (tx :: txs)) last_updated);;
      ret (tx :: txs, true, None)
  | _ =>
      progress progress_callback MsgFetching;;
      r ← fetch_pages progress_callback max_pages
                       (range 1 (max_pages + 1)) [];
      match r with
      | inl early => ret early
      | inr all_transactions =>
          progress progress_callback
            (MsgFetched (List.length all_transactions));;
          save_to_cache all_transactions;;
          ret (all_transactions, true, None)
      end
  end.

Definition fetch_all_transactions (progress_callback : bool) (max_pages : Z)
  : M Result :=
  try_except (fetch_body progress_callback max_pages)
    (fun error_msg =>
       progress progress_callback (MsgError error_msg);;
       ret ([], false, Some error_msg)).

End Program.

(** [max_pages=5], the default of [fetch_all_transactions]. *)
Definition DEFAULT_MAX_PAGES : Z := 5.

End Fetcher.

(** * Further code of the two files *)

(** ** [get_transactions_dataframe] ([transaction_fetcher.py]) *)

Module FetcherFrame.
Import PyDatetime Fetcher.


End FetcherFrame.

(** ** The views of the dashboard ([streamlit_complete_app.py]) *)

Module DashboardViews.
Import Dashboard.
Local Open Scope Q_scope.

(** A frame is the list of its rows.  The frame [pd.DataFrame(rows)] of an
    empty list has no columns, so [df[name]] raises [KeyError] on it
    ([None]); otherwise it is the column of the values. *)
Definition column {Row A} (get : Row -> A) (df : list Row)
  : option (list A) :=
  match df with
  | [] => None
  | _ :: _ => Some (map get df)
  end.

(** [df[mask]]: the rows at which the boolean column holds [True]. *)
Fixpoint select {Row} (mask : list bool) (df : list Row) : list Row :=
  match mask, df with
  | b :: mask', row :: df' =>
      if b then row :: select mask' df' else select mask' df'
  | _, _ => []
  end.

(** [column.sum()]: 0 for a column without values. *)
Definition Qsum (xs : list Q) : Q := fold_right Qplus 0 xs.

(** *** Quick stats and the summary cards *)

(** [abs(vault_df['Borrow Delta USD'].sum())]. *)
Definition total_vault_borrow (vault_df : list VaultRow) : option Q :=
  col ← column Borrow_Delta_USD vault_df; Some (Qabs (Qsum col)).

(** *** Rebalance alerts *)

Definition high_vaults (vault_df : list VaultRow)
  : option (list VaultRow) :=
  col ← column Supply_Delta_USD vault_df;
  Some (select (map (fun x => Qgtb x 300000) col) vault_df).
Definition high_borrows (vault_df : list VaultRow)
  : option (list VaultRow) :=
  col ← column Borrow_Delta_USD vault_df;
  Some (select (map (fun x => Qgtb (Qabs x) 100000) col) vault_df).
Definition high_lending (lending_df : list LendingRow)
  : option (list LendingRow) :=
  col ← column Rewards_USD lending_df;
  Some (select (map (fun x => Qgtb x 300000) col) lending_df).

(** The three frames of the alerts, then the condition under which
    "No urgent rebalancing needed" is shown. *)
Definition no_urgent_rebalancing (vault_df : list VaultRow)
  (lending_df : list LendingRow) : option bool :=
  high_vaults ← high_vaults vault_df;
  high_borrows ← high_borrows vault_df;
  high_lending ← high_lending lending_df;
  Some ((List.length high_vaults =? 0)%nat
        && (List.length high_borrows =? 0)%nat
        && (List.length high_lending =? 0)%nat).

(** *** The vault tab *)

(** The default of the team filter:
    [vault_df['Responsible Party'].unique()], the values in order of first
    appearance. *)
Fixpoint unique (xs : list string) : list string :=
  match xs with
  | [] => []
  | x :: rest => x :: List.filter (fun y => negb (String.eqb y x)) (unique rest)
  end.
Definition default_team_filter (vault_df : list VaultRow)
  : option (list string) :=
  col ← column Responsible_Party vault_df; Some (unique col).

(** [vault_df[vault_df['Responsible Party'].isin(team_filter)]]. *)
Definition filtered_df (team_filter : list string)
  (vault_df : list VaultRow) : option (list VaultRow) :=
  col ← column Responsible_Party vault_df;
  Some (select (map (fun x => str_in x team_filter) col) vault_df).

(** [filtered_df] keeps the columns of [vault_df] even when it keeps no
    row, so the lookups on it do not raise. *)
Definition supply_df (filtered_df : list VaultRow) : list VaultRow :=
  select (map (fun x => Qgtb x 100) (map Supply_Delta_USD filtered_df))
         filtered_df.
Definition borrow_df (filtered_df : list VaultRow) : list VaultRow :=
  select (map (fun x => Qgtb (Qabs x) 100)
              (map Borrow_Delta_USD filtered_df))
         filtered_df.

(** *** Pending rewards by token *)

(** The dictionary [pending_rewards], with its keys in insertion order. *)
Definition pending_init : list (string * Q) :=
  [ ("USDC", 0); ("USDG", 0); ("SOL", 0); ("EURC", 0); ("USDS", 0);
    ("USDT", 0) ]%string.

(** [pending_rewards[key] += delta] for a key of the dictionary. *)
Definition pending_add (key : string) (delta : Q)
  (pending_rewards : list (string * Q)) : list (string * Q) :=
  map (fun kv => if String.eqb (fst kv) key
                 then (fst kv, snd kv + delta) else kv)
      pending_rewards.

(** The body of the loop over the vaults.  The totals are read with
    [.get(key, 0)]; a [Vault] always has them. *)
Definition pending_vault (pending_rewards : list (string * Q))
  (vault : Vault) : list (string * Q) :=
  let supply_symbol := symbol (supplyToken vault) in
  let borrow_symbol := symbol (borrowToken vault) in
  let pending1 :=
    if String.eqb supply_symbol "WSOL" then
      let supply_delta := supply_delta_amount vault in
      if Qgtb supply_delta 0
      then pending_add "SOL" supply_delta pending_rewards
      else pending_rewards
    else pending_rewards in
  let borrow_delta := borrow_delta_amount vault in
  if Qgtb borrow_delta 0 then
    if String.eqb borrow_symbol "USDC"
    then pending_add "USDC" borrow_delta pending1
    else if String.eqb borrow_symbol "USDG"
    then pending_add "USDG" borrow_delta pending1
    else if String.eqb borrow_symbol "EURC"
    then pending_add "EURC" borrow_delta pending1
    else if String.eqb borrow_symbol "SOL"
    then pending_add "SOL" borrow_delta pending1
    else pending1
  else pending1.

(** The body of the loop over the lending tokens. *)
Definition pending_lending (pending_rewards : list (string * Q))
  (token : Lending) : list (string * Q) :=
  let sym := symbol (asset token) in
  let lending_delta := rewards_amount token in
  if Qgtb lending_delta 0 then
    if String.eqb sym "USDC"
    then pending_add "USDC" lending_delta pending_rewards
    else if String.eqb sym "USDG"
    then pending_add "USDG" lending_delta pending_rewards
    else if String.eqb sym "USDT"
    then pending_add "USDT" lending_delta pending_rewards
    else if String.eqb sym "EURC"
    then pending_add "EURC" lending_delta pending_rewards
    else if String.eqb sym "USDS"
    then pending_add "USDS" lending_delta pending_rewards
    else pending_rewards
  else pending_rewards.

Definition pending_rewards (vaults : list Vault)
  (lending_tokens : list Lending) : list (string * Q) :=
  fold_left pending_lending lending_tokens
            (fold_left pending_vault vaults pending_init).

(** The price of the first vault whose supply token is WSOL, else 150. *)
Fixpoint summary_sol_price (vaults : list Vault) : Q :=
  match vaults with
  | [] => 150 # 1
  | vault :: rest =>
      if String.eqb (symbol (supplyToken vault)) "WSOL"
      then price (supplyToken vault)
      else summary_sol_price rest
  end.

Record SummaryRow := {
  s_Token : string;            (* 'Token' *)
  s_Amount_Required : Q;       (* 'Amount Required' *)
  s_USD_Value : Q              (* 'USD Value' *)
}.

(** The loop over [pending_rewards.items()]. *)
Fixpoint summary_rows (sol_price : Q) (items : list (string * Q))
  : list SummaryRow :=
  match items with
  | [] => []
  | (token, amount) :: rest =>
      if Qgtb amount 0 then
        {| s_Token := token;
           s_Amount_Required := amount;
           s_USD_Value := if String.eqb token "SOL"
                          then amount * sol_price else amount * 1 |}
        :: summary_rows sol_price rest
      else summary_rows sol_price rest
  end.

(** [summary_data], before it is sorted for display. *)
Definition summary_data (vaults : list Vault)
  (lending_tokens : list Lending) : list SummaryRow :=
  summary_rows (summary_sol_price vaults)
               (pending_rewards vaults lending_tokens).

(** *** The treasury balance *)

(** A vault as the price extraction reads it: every key through [.get]. *)
Record BalanceToken := { bt_symbol : option string; bt_price : option Q }.
Record BalanceVault := {
  bv_supplyToken : option BalanceToken;
  bv_borrowToken : option BalanceToken
}.

(** One item of the token-accounts page. *)
Record Account := {
  a_token_address : option string;
  a_amount : option Q;
  a_token_decimals : option Z
}.

(** A row of [balances]. *)
Record Balance := {
  b_Token : string;        (* 'Token' *)
  b_Amount : Q;            (* 'Amount' *)
  b_Value_USD : Q          (* 'Value USD' *)
}.

(** [if token.get('symbol'): prices[token['symbol']] =
    float(token.get('price', 0))], for [token = vault.get(key, {})]. *)
Definition record_price (prices : gmap string Q)
  (token : option BalanceToken) : gmap string Q :=
  match token with
  | Some t =>
      match bt_symbol t with
      | Some EmptyString | None => prices
      | Some sym => <[sym := default 0 (bt_price t)]> prices
      end
  | None => prices
  end.

(** The loop that fills [prices]. *)
Definition extract_prices (vaults : list BalanceVault) : gmap string Q :=
  fold_left (fun prices vault =>
               record_price (record_price prices (bv_supplyToken vault))
                            (bv_borrowToken vault))
            vaults ∅.

(** [prices.get('WSOL', prices.get('SOL', 150.0))]. *)
Definition balance_sol_price (prices : gmap string Q) : Q :=
  default (default (150 # 1) (prices !! "SOL"%string))
          (prices !! "WSOL"%string).

(** The USD value of a positive balance. *)
Definition balance_value (sol_price : Q) (prices : gmap string Q)
  (token_symbol : string) (amount : Q) : Q :=
  if str_in token_symbol ["MNDE"; "JTO"]%string then 0
  else if str_in token_symbol ["USDC"; "USDT"; "USDS"; "USDG"]%string
  then amount * 1
  else if str_in token_symbol ["SOL"; "WSOL"]%string then amount * sol_price
  else if String.eqb token_symbol "EURC"
  then amount * default 1 (prices !! "EURC"%string)
  else if String.eqb token_symbol "syrupUSDC"
  then amount * default 1 (prices !! "syrupUSDC"%string)
  else amount * default 0 (prices !! token_symbol).

(** The loop over [token_accounts]: the rows appended to [balances] and the
    final [total_value], from the values they have on entry. *)
Fixpoint process_balances (sol_price : Q) (prices : gmap string Q)
  (tokens_meta : gmap string (option string))
  (token_accounts : list Account) (balances : list Balance)
  (total_value : Q) : list Balance * Q :=
  match token_accounts with
  | [] => (balances, total_value)
  | account :: rest =>
      let token_address := default ""%string (a_token_address account) in
      let amount_raw := default 0 (a_amount account) in
      let decimals := default 6%Z (a_token_decimals account) in
      let token_symbol :=
        match tokens_meta !! token_address with
        | Some token_info => default "UNKNOWN"%string token_info
        | None => "UNKNOWN"%string
        end in
      let amount := amount_raw / pow10 decimals in
      if Qgtb amount 0 then
        let value_usd := balance_value sol_price prices token_symbol amount in
        process_balances sol_price prices tokens_meta rest
          (balances ++ [ {| b_Token := token_symbol; b_Amount := amount;
                            b_Value_USD := value_usd |} ])
          (total_value + value_usd)
      else
        process_balances sol_price prices tokens_meta rest balances
                         total_value
  end.

End DashboardViews.

(** * Vocabulary of the statements

    Observations on runs and sample inputs, used to state the properties
    below. *)

Module DashboardSamples.
Import Dashboard.

Definition C2_vault : Vault :=
  {| id := 1;
     supplyToken := {| symbol := "WSOL"; name := "Wrapped SOL";
                       decimals := 9; price := 160 # 1 |};
     borrowToken := {| symbol := "USDC"; name := "USD Coin";
                       decimals := 6; price := 1 |};
     totalSupply := 5000000000 # 1;
     totalSupplyLiquidity := 4500000000 # 1;
     totalBorrow := 7 # 1; totalBorrowLiquidity := 7 # 1 |}.

Definition C8_row (borrow_delta_usd : Q) : VaultRow :=
  {| Vault_ID := 3; Vault_Pair := "JUPSOL/USDG";
     Supply_Token := "JUPSOL"; Borrow_Token := "USDG";
     Supply_Delta_Amount := 0; Supply_Delta_USD := 0;
     Borrow_Delta_Amount := borrow_delta_usd;
     Borrow_Delta_USD := borrow_delta_usd;
     Responsible_Party := "USDG Team"; Incentive_Type := "Borrow";
     Supply_Token_Price := 1; Borrow_Token_Price := 1 |}.

Definition C9_vault : Vault :=
  {| id := 2;
     supplyToken := {| symbol := "PST"; name := "PST";
                       decimals := 0; price := 2 # 1 |};
     borrowToken := {| symbol := "USDC"; name := "USD Coin";
                       decimals := 6; price := 1 |};
     totalSupply := 500 # 1; totalSupplyLiquidity := 0;
     totalBorrow := 0; totalBorrowLiquidity := 0 |}.

End DashboardSamples.

Module FetcherSpec.
Import PyDatetime Fetcher.

(** The state after one more request to the vault API. *)
Definition bump (st : State) : State :=
  {| cache_file := cache_file st; vault_calls := S (vault_calls st) |}.

(** The price [get_sol_price] returns when called in state [st]. *)
Definition price_now (W : World) (st : State) : Q :=
  match vault_api W (vault_calls st) with
  | VaultError => 150 # 1
  | VaultJson vaults => wsol_price vaults
  end.

(** The records that pass the minimum-value test. *)
Definition kept (sol_price : Q) (tokens_meta : gmap string TokenInfo)
  (raw_data : list Transfer) : list Transfer :=
  List.filter
    (fun tx => negb (Qltb (tx_value_usd sol_price tokens_meta tx)
                          MIN_VALUE_USD))
    raw_data.

(** The cache file [save_to_cache] writes for [txs]. *)
Definition saved (W : World) (txs : list Transaction) : CacheData :=
  {| last_updated := isoformat (now W); transactions := serialize txs |}.

(** The value a computation returns, or the exception it raises, when run in
    a state. *)
Definition outcome {A} (m : M A) (st : State) : Res A := fst (fst (m st)).

(** The state after [i] further requests to the vault API. *)
Definition shift (st : State) (i : nat) : State :=
  {| cache_file := cache_file st; vault_calls := vault_calls st + i |}.

(** The state in which page [page] is requested when every earlier page,
    from page 1 on, was processed. *)
Definition at_page (st : State) (page : Z) : State :=
  shift st (Z.to_nat (page - 1)).

(** The transfer pages requested, with their page sizes, in order. *)
Definition pages_fetched (ev : list Event) : list (Z * Z) :=
  flat_map (fun e => match e with
                     | SolscanGet page page_size => [(page, page_size)]
                     | _ => []
                     end) ev.

(** The cache files written, in order. *)
Definition cache_writes (ev : list Event) : list CacheData :=
  flat_map (fun e => match e with
                     | CacheWrite cache_data => [cache_data]
                     | _ => []
                     end) ev.

(** The requests to either API. *)
Definition network_calls (ev : list Event) : list Event :=
  List.filter (fun e => match e with
                        | SolscanGet _ _ | VaultGet => true
                        | _ => false
                        end) ev.

(** The events of [progress]. *)
Definition progress_log (cb : bool) (msg : Message) : list Event :=
  if cb then [Progress msg] else [].

(** Page [page], requested in state [st], comes back with data, and its
    processing returns [out]. *)
Definition good_page (W : World) (st : State) (page : Z)
  (out : list Transaction) : Prop :=
  exists raw_data metadata error,
    raw_data <> []
    /\ outcome (fetch_from_solscan W page 40) st
       = Ok (raw_data, metadata, true, error)
    /\ outcome (process_transactions W raw_data metadata) st = Ok out.

(** The cache gives nothing to return: no file, an unreadable one, or an
    empty list of transactions. *)
Definition cache_miss (st : State) : Prop :=
  forall tx txs, fst (read_cache (cache_file st)) <> Some (tx :: txs).

(** The claim C6 as it is stated: whenever the cache file loads, its
    transactions are returned with success and no request is made. *)
Definition cache_first_whenever_loadable : Prop :=
  forall W cb max_pages st txs updated,
    read_cache (cache_file st) = (Some txs, Some updated) ->
    exists st' ev,
      fetch_all_transactions W cb max_pages st
      = (Ok (txs, true, None), st', ev)
      /\ network_calls ev = [].

(** ** A sample page and sample environments *)

Definition sample_transfer (flow : string) (amount : Q) (decimals : Z)
  (value : option Q) (time trans_id token_address : string) : Transfer :=
  {| r_flow := Some flow;
     r_from_address := Some "7b1zZUuae2F56e66GqpkKe1Tq1BK2ePRRuGGr8ahe2JB"%string;
     r_to_address := Some "FH9bgRZrEGFA1d4859wSBdNnHgtU5ZDqFUPccHDnYQ3p"%string;
     r_token_address := Some token_address;
     r_amount := Some amount;
     r_token_decimals := Some decimals;
     r_value := value;
     r_time := Some time;
     r_trans_id := Some trans_id;
     r_block_id := Some 7 |}.

Definition sample_metadata : Metadata :=
  {| tokens := Some (list_to_map
       [ ("mintUSDC"%string, {| token_symbol := Some "USDC"%string |});
         ("mintSOL"%string, {| token_symbol := Some "SOL"%string |});
         ("mintJUP"%string, {| token_symbol := Some "JUP"%string |}) ]) |}.

(** 5 USDC in, 2,000,000 USDC in, 20 SOL out, and a JUP transfer without a
    ['value'] whose time does not parse. *)
Definition sample_page : list Transfer :=
  [ sample_transfer "in" (5000000 # 1) 6 None
      "2025-08-19T10:00:00.000Z" "sig1" "mintUSDC";
    sample_transfer "in" (2000000000000 # 1) 6 None
      "2025-08-19T10:00:00.000Z" "sig2" "mintUSDC";
    sample_transfer "out" (20000000000 # 1) 9 None
      "2025-08-19T11:30:00Z" "sig3" "mintSOL";
    sample_transfer "out" (900000000000 # 1) 6 None
      "yesterday" "sig4" "mintJUP" ]%string.

Definition sample_now : datetime :=
  {| year := 2025; month := 8; day := 20; hour := 9; minute := 30;
     second := 0; microsecond := 250; tzinfo := None |}.

(** Page 1 holds [sample_page], page 2 is empty, later pages fail. *)
Definition sample_world : World :=
  {| SOLSCAN_API_KEY := Some "key"%string;
     solscan_api := fun page _ =>
       if page =? 1 then
         SolscanJson {| e_success := Some true; e_data := Some sample_page;
                        e_metadata := Some sample_metadata |}
       else if page =? 2 then
         SolscanJson {| e_success := Some true; e_data := Some [];
                        e_metadata := None |}
       else SolscanError "503 Server Error";
     vault_api := fun _ => VaultError;
     now := sample_now |}.

Definition empty_state : State :=
  {| cache_file := NoFile; vault_calls := 0 |}.

Definition sample_processed : list Transaction :=
  Eval vm_compute in
    match process_transactions sample_world sample_page sample_metadata
            empty_state with
    | (Ok out, _, _) => out
    | _ => []
    end.

(** A cache file that loads and holds no transaction, as [save_to_cache]
    writes it after a fetch in which no transfer reached the minimum. *)
Definition empty_cache_state : State :=
  {| cache_file := Stored (saved sample_world []); vault_calls := 0 |}.

(** The state after the sample fetch: the cache holds two transactions. *)
Definition cached_state : State :=
  {| cache_file := Stored (saved sample_world sample_processed);
     vault_calls := 1 |}.

(** Page 1 holds [sample_page]; page 2 holds a 5000 USDC transfer whose
    time does not parse; page 3 is a network error. *)
Definition failing_world : World :=
  {| SOLSCAN_API_KEY := Some "key"%string;
     solscan_api := fun page _ =>
       if page =? 1 then
         SolscanJson {| e_success := Some true; e_data := Some sample_page;
                        e_metadata := Some sample_metadata |}
       else if page =? 2 then
         SolscanJson {| e_success := Some true;
                        e_data := Some
                          [sample_transfer "in" (5000000000 # 1) 6 None
                             "19/08/2025" "sig5" "mintUSDC"];
                        e_metadata := Some sample_metadata |}
       else SolscanError "HTTPSConnectionPool: Read timed out.";
     vault_api := fun _ => VaultError;
     now := sample_now |}.

End FetcherSpec.

(** ** Further vocabulary of the fetcher *)

Module FetcherExtrasSpec.
Import PyDatetime Fetcher FetcherSpec.

(** No vault of the list has WSOL as the symbol of its supply token. *)
Definition no_wsol (vaults : list PriceVault) : Prop :=
  Forall (fun vault =>
            (st ← pv_supplyToken vault; pt_symbol st) <> Some "WSOL"%string)
         vaults.

(** [if not SOLSCAN_API_KEY]. *)
Definition no_api_key (W : World) : Prop :=
  SOLSCAN_API_KEY W = None \/ SOLSCAN_API_KEY W = Some ""%string.

(** The sample world without an API key. *)
Definition keyless_world : World :=
  {| SOLSCAN_API_KEY := None;
     solscan_api := solscan_api sample_world;
     vault_api := vault_api sample_world;
     now := sample_now |}.


(** Every timestamp of the list passes the constructor's range checks. *)
Definition valid_timestamps (txs : list Transaction) : Prop :=
  Forall (fun tx => valid (timestamp tx) = true) txs.

(** The same date and time, at UTC. *)
Definition at_utc (dt : datetime) : datetime :=
  {| year := year dt; month := month dt; day := day dt; hour := hour dt;
     minute := minute dt; second := second dt;
     microsecond := microsecond dt; tzinfo := Some 0 |}.

End FetcherExtrasSpec.

(** ** Further vocabulary of the dashboard *)

Module DashboardExtrasSpec.
Import Dashboard DashboardViews.
Local Open Scope Q_scope.

(** A lending row between the two tiers. *)
Definition sample_lending_row : LendingRow :=
  {| Lending_ID := 1; Token_ := "USDC"; Token_Name := "USD Coin";
     Rewards_Amount := 150000 # 1; Rewards_USD := 150000 # 1;
     L_Responsible_Party := "Fluid Treasury"; Token_Price := 1;
     Total_Assets := 150000 # 1; Liquidity_Supply := 0 |}.

(** The entry is labelled High. *)
Definition is_high (p : Priority) : bool := String.eqb (p_Priority p) "High".

(** The keys of the initial [pending_by_token] dictionary, in order. *)
Definition reward_tokens : list string :=
  ["USDC"; "USDG"; "SOL"; "EURC"; "USDS"; "USDT"]%string.

(** The keys are those of the initial dictionary and no amount is
    negative. *)
Definition pending_ok (pending : list (string * Q)) : Prop :=
  map fst pending = reward_tokens /\ Forall (fun kv => 0 <= snd kv) pending.

(** A vault of the price extraction whose borrow token has no price. *)
Definition sample_balance_vault : BalanceVault :=
  {| bv_supplyToken := Some {| bt_symbol := Some "WSOL"%string;
                               bt_price := Some (160 # 1) |};
     bv_borrowToken := Some {| bt_symbol := Some "USDC"%string;
                               bt_price := None |} |}.

(** The symbol is the one of the supply or the borrow token of the vault. *)
Definition mentions (sym : string) (vault : BalanceVault) : Prop :=
  (t ← bv_supplyToken vault; bt_symbol t) = Some sym
  \/ (t ← bv_borrowToken vault; bt_symbol t) = Some sym.

End DashboardExtrasSpec.

(** * Properties *)

(** ** Numbers and strings *)

Lemma Qgtb_spec x y : Qgtb x y = true <-> (y < x)%Q.
Proof.
  unfold Qgtb. rewrite negb_true_iff. split.
  - intros H. apply Qnot_le_lt. intros Hle.
    apply Qle_bool_iff in Hle. congruence.
  - intros H. destruct (Qle_bool x y) eqn:E; [|reflexivity].
    apply Qle_bool_iff in E. exfalso. eapply Qlt_not_le; eauto.
Qed.

Lemma Qltb_spec x y : Qltb x y = true <-> (x < y)%Q.
Proof. unfold Qltb. apply (Qgtb_spec y x). Qed.

Lemma Qgtb_false x y : Qgtb x y = false <-> (x <= y)%Q.
Proof.
  unfold Qgtb. rewrite negb_false_iff. apply Qle_bool_iff.
Qed.




Lemma str_in_spec x xs : str_in x xs = true <-> In x xs.
Proof.
  unfold str_in. rewrite existsb_exists. split.
  - intros (y & Hy & E). apply String.eqb_eq in E. now subst.
  - intros H. exists x. split; [exact H | apply String.eqb_refl].
Qed.

(** ** Vault reward deltas *)

Section DashboardProperties.
Import Dashboard DashboardSamples.
Local Open Scope Q_scope.

(** The rows are those of the vaults that pass the guard, in order. *)
Lemma process_vault_data_filter (vaults : list Vault) :
  process_vault_data vaults
  = map vault_row (List.filter vault_above_floor vaults).
Proof.
  induction vaults as [|vault rest IH]; simpl; [reflexivity|].
  destruct (vault_above_floor vault); simpl; now rewrite IH.
Qed.

Lemma vault_above_floor_spec (vault : Vault) :
  vault_above_floor vault = true
  <-> 100 < Qabs (supply_delta_usd vault)
      \/ 100 < Qabs (borrow_delta_usd vault).
Proof.
  unfold vault_above_floor. rewrite orb_true_iff, !Qgtb_spec. reflexivity.
Qed.





(** *** Alert tiers *)

(** The entries of type "Vault Borrow" in [priorities] are the ones
    [vault_borrow_priority] yields for the rows of the vault data frame. *)
Lemma priorities_vault_borrow vault_df lending_df (p : Priority) :
  In p (priorities vault_df lending_df) /\ p_Type p = "Vault Borrow"%string
  <-> exists row, In row vault_df /\ In p (vault_borrow_priority row).
Proof.
  unfold priorities. rewrite in_app_iff, !in_flat_map. split.
  - intros [[(row & Hrow & Hp) | (row & Hrow & Hp)] Hty].
    + apply in_app_iff in Hp as [Hp | Hp]; [|eauto].
      unfold vault_supply_priority in Hp.
      destruct (Qgtb _ _); [|contradiction].
      destruct Hp as [<- | []]. discriminate.
    + unfold lending_priority in Hp.
      destruct (Qgtb _ _); [|contradiction].
      destruct Hp as [<- | []]. discriminate.
  - intros (row & Hrow & Hp). split.
    + left. exists row. split; [exact Hrow|]. apply in_app_iff. now right.
    + unfold vault_borrow_priority in Hp.
      destruct (Qgtb _ _); [|contradiction].
      now destruct Hp as [<- | []].
Qed.

Ltac q_absurd :=
  intros; exfalso;
  repeat match goal with H : _ /\ _ |- _ => destruct H end;
  match goal with
  | L : (?x < ?y)%Q, H : (?y <= ?x)%Q |- _ => exact (Qlt_not_le _ _ L H)
  | L : (_ < ?y)%Q, E : (?y == _)%Q |- _ => rewrite E in L; discriminate L
  | L : (?y <= _)%Q, E : (?y == _)%Q |- _ => rewrite E in L; now apply L
  | L : (?x < ?y)%Q, M : (?y <= ?z)%Q |- _ =>
      let C := fresh in
      assert (C : (x < z)%Q) by (eapply Qlt_le_trans; eassumption);
      discriminate C
  end.

(** The tier of the borrow side of one row. *)
Lemma vault_borrow_priority_tiers (row : VaultRow) :
  let b := Qabs (Borrow_Delta_USD row) in
  (vault_borrow_priority row <> [] <-> 50000 < b)
  /\ (vault_borrow_priority row = [] <-> b <= 50000)
  /\ (map p_Priority (vault_borrow_priority row) = ["High"%string]
      <-> 100000 < b)
  /\ (map p_Priority (vault_borrow_priority row) = ["Medium"%string]
      <-> 50000 < b /\ b <= 100000)
  /\ (b == 100000 ->
      map p_Priority (vault_borrow_priority row) = ["Medium"%string])
  /\ (b == 50000 -> vault_borrow_priority row = []).
Proof.
  intros b.
  pose proof (Qgtb_spec b 50000) as Hlow.
  pose proof (Qgtb_false b 50000) as Hlow'.
  pose proof (Qgtb_spec b 100000) as Hhigh.
  pose proof (Qgtb_false b 100000) as Hhigh'.
  unfold vault_borrow_priority. fold b.
  destruct (Qgtb b 50000) eqn:E1; destruct (Qgtb b 100000) eqn:E2; simpl.
  - assert (L : 50000 < b) by now apply Hlow.
    assert (H : 100000 < b) by now apply Hhigh.
    repeat split; try congruence; try tauto; q_absurd.
  - assert (L : 50000 < b) by now apply Hlow.
    assert (H : b <= 100000) by now apply Hhigh'.
    repeat split; try congruence; try tauto; q_absurd.
  - assert (L : b <= 50000) by now apply Hlow'.
    assert (H : 100000 < b) by now apply Hhigh.
    q_absurd.
  - assert (L : b <= 50000) by now apply Hlow'.
    assert (H : b <= 100000) by now apply Hhigh'.
    repeat split; try congruence; try tauto; q_absurd.
Qed.

(** C8.  The borrow side of a vault row enters the priority list exactly
    when its absolute USD delta is strictly greater than 50,000, tagged High
    exactly when it is strictly greater than 100,000 and Medium otherwise; at
    exactly 100,000 the entry is Medium, and at exactly 50,000, or anywhere
    at or below it, the row contributes no borrow entry at all. *)
Theorem C8_borrow_alert_tiers (row : VaultRow) :
  let b := Qabs (Borrow_Delta_USD row) in
  (vault_borrow_priority row <> [] <-> 50000 < b)
  /\ (vault_borrow_priority row = [] <-> b <= 50000)
  /\ (map p_Priority (vault_borrow_priority row) = ["High"%string]
      <-> 100000 < b)
  /\ (map p_Priority (vault_borrow_priority row) = ["Medium"%string]
      <-> 50000 < b /\ b <= 100000)
  /\ (b == 100000 ->
      map p_Priority (vault_borrow_priority row) = ["Medium"%string])
  /\ (b == 50000 -> vault_borrow_priority row = [])
  /\ (forall vault_df lending_df p,
        In p (priorities vault_df lending_df)
        /\ p_Type p = "Vault Borrow"%string
        <-> exists row', In row' vault_df
                         /\ In p (vault_borrow_priority row')).
Proof.
  intros b.
  destruct (vault_borrow_priority_tiers row) as (H1 & H2 & H3 & H4 & H5 & H6).
  repeat (split; [assumption|]).
  apply priorities_vault_borrow.
Qed.

Lemma C8_borrow_alert_tiers_witness :
  map p_Priority (vault_borrow_priority (C8_row (-100000 # 1)))
  = ["Medium"%string]
  /\ vault_borrow_priority (C8_row (50000 # 1)) = []
  /\ map p_Priority (vault_borrow_priority (C8_row (100001 # 1)))
     = ["High"%string].
Proof.
  split; [|split].
  - apply (C8_borrow_alert_tiers (C8_row (-100000 # 1))). reflexivity.
  - apply (C8_borrow_alert_tiers (C8_row (50000 # 1))). reflexivity.
  - apply (C8_borrow_alert_tiers (C8_row (100001 # 1))). reflexivity.
Defined.

(** *** Zero decimals, zero price *)




End DashboardProperties.

(** ** Timestamps: [fromisoformat] inverts [isoformat] *)

Module PyDatetimeProperties.
Import PyDatetime.

Lemma digit_cases (n : Z) :
  let d := n mod 10 in
  d = 0 \/ d = 1 \/ d = 2 \/ d = 3 \/ d = 4 \/ d = 5 \/ d = 6 \/ d = 7
  \/ d = 8 \/ d = 9.
Proof. intros d. pose proof (Z.mod_pos_bound n 10). lia. Qed.

Ltac by_digit n :=
  unfold digit_char;
  destruct (digit_cases n) as
    [E|[E|[E|[E|[E|[E|[E|[E|[E|E]]]]]]]]]; rewrite E; reflexivity.

Lemma digit_val_digit_char (n : Z) :
  digit_val (digit_char n) = Some (n mod 10).
Proof. by_digit n. Qed.

Lemma is_sign_digit_char (n : Z) : is_sign (digit_char n) = false.
Proof. by_digit n. Qed.

Lemma length_pad k n : List.length (pad k n) = k.
Proof.
  revert n. induction k as [|k IH]; intros n; simpl; [reflexivity|].
  rewrite length_app, IH. simpl. lia.
Qed.

Lemma pad_no_sign k n : Forall (fun c => is_sign c = false) (pad k n).
Proof.
  revert n. induction k as [|k IH]; intros n; simpl.
  - constructor.
  - apply Forall_app. split; [apply IH|].
    constructor; [apply is_sign_digit_char | constructor].
Qed.

Lemma parse_digits_app k1 k2 acc l :
  parse_digits (k1 + k2) acc l
  = '(a, l') ← parse_digits k1 acc l; parse_digits k2 a l'.
Proof.
  revert acc l. induction k1 as [|k1 IH]; intros acc l; simpl.
  - reflexivity.
  - destruct l as [|c l]; [reflexivity|].
    destruct (digit_val c) as [d|]; simpl; [apply IH | reflexivity].
Qed.

Lemma parse_digits_1 acc n rest :
  parse_digits 1 acc (digit_char n :: rest)
  = Some (acc * 10 + n mod 10, rest).
Proof.
  unfold parse_digits. rewrite digit_val_digit_char. reflexivity.
Qed.

Lemma parse_digits_pad k n acc rest :
  0 <= n < 10 ^ Z.of_nat k ->
  parse_digits k acc (pad k n ++ rest)
  = Some (acc * 10 ^ Z.of_nat k + n, rest).
Proof.
  revert n acc rest. induction k as [|k IH]; intros n acc rest Hn.
  - change (10 ^ Z.of_nat 0) with 1 in *.
    unfold parse_digits, pad, app. f_equal. f_equal. lia.
  - rewrite Nat2Z.inj_succ, Z.pow_succ_r in * by lia.
    replace (S k) with (k + 1)%nat at 1 by lia.
    rewrite parse_digits_app.
    change (pad (S k) n) with (pad k (n / 10) ++ [digit_char n]).
    rewrite <- app_assoc.
    change ([digit_char n] ++ rest) with (digit_char n :: rest).
    rewrite IH by (split; [apply Z.div_pos; lia
                          | apply Z.div_lt_upper_bound; lia]).
    unfold mbind, option_bind. rewrite parse_digits_1.
    f_equal. f_equal.
    pose proof (Z.div_mod n 10). lia.
Qed.

Lemma parse_digits_pad0 k n rest :
  0 <= n < 10 ^ Z.of_nat k ->
  parse_digits k 0 (pad k n ++ rest) = Some (n, rest).
Proof. intros H. rewrite parse_digits_pad by exact H. reflexivity. Qed.

Lemma split_tz_app (t rest : list ascii) :
  Forall (fun c => is_sign c = false) t ->
  split_tz (t ++ rest)
  = (t ++ fst (split_tz rest), snd (split_tz rest)).
Proof.
  induction 1 as [|c t Hc _ IH].
  - simpl. now destruct (split_tz rest).
  - change ((c :: t) ++ rest) with (c :: (t ++ rest)).
    cbn [split_tz]. rewrite Hc, IH. reflexivity.
Qed.

Lemma split_tz_sign (c : ascii) (rest : list ascii) :
  is_sign c = true ->
  split_tz (c :: rest) = ([], Some (Ascii.eqb c "-", rest)).
Proof. intros H. cbn [split_tz]. now rewrite H. Qed.

Lemma parse_seconds_tail ss us (hh mm : Z) :
  0 <= ss < 100 -> 0 <= us < 1000000 ->
  match pad 2 ss ++ fraction_chars us with
  | [] => None
  | _ =>
      '(ss', l) ← parse_digits 2 0 (pad 2 ss ++ fraction_chars us);
      match l with
      | [] => Some (hh, mm, ss', 0)
      | _ => l ← expect "." l; us' ← parse_fraction l;
             Some (hh, mm, ss', us')
      end
  end = Some (hh, mm, ss, us).
Proof.
  intros Hs Hu.
  destruct (pad 2 ss ++ fraction_chars us) as [|c0 l0] eqn:E.
  { apply (f_equal (@List.length ascii)) in E.
    rewrite length_app, length_pad in E. discriminate E. }
  rewrite <- E. rewrite parse_digits_pad0 by (change (10 ^ Z.of_nat 2) with 100; lia).
  unfold mbind, option_bind, fraction_chars.
  destruct (us =? 0) eqn:Eu.
  - apply Z.eqb_eq in Eu. now subst us.
  - cbn [expect]. rewrite Ascii.eqb_refl.
    unfold parse_fraction. rewrite length_pad.
    change (6 =? 3)%nat with false. change (6 =? 6)%nat with true.
    cbv iota.
    rewrite <- (app_nil_r (pad 6 us)).
    rewrite parse_digits_pad0
      by (change (10 ^ Z.of_nat 6) with 1000000; lia).
    reflexivity.
Qed.

(** The text [HH:MM:SS[.ffffff]] parses to its fields. *)
Lemma parse_format_time hh mm ss us :
  0 <= hh < 100 -> 0 <= mm < 100 -> 0 <= ss < 100 -> 0 <= us < 1000000 ->
  parse_hh_mm_ss_ff (format_time hh mm ss us) = Some (hh, mm, ss, us).
Proof.
  intros Hh Hm Hs Hu. unfold parse_hh_mm_ss_ff, format_time.
  fold (fraction_chars us).
  rewrite parse_digits_pad0 by (change (10 ^ Z.of_nat 2) with 100; lia).
  unfold mbind at 1, option_bind at 1. cbv beta iota.
  cbn [expect]. rewrite Ascii.eqb_refl.
  unfold mbind at 1, option_bind at 1. cbv beta iota.
  rewrite parse_digits_pad0 by (change (10 ^ Z.of_nat 2) with 100; lia).
  unfold mbind at 1, option_bind at 1. cbv beta iota.
  cbn [expect]. rewrite Ascii.eqb_refl.
  unfold mbind at 1, option_bind at 1. cbv beta iota.
  apply parse_seconds_tail; assumption.
Qed.

Lemma offset_fields (a : Z) :
  0 <= a < 86400000000 ->
  0 <= hh_of a < 100 /\ 0 <= mm_of a < 100 /\ 0 <= ss_of a < 100
  /\ 0 <= us_of a < 1000000
  /\ hh_of a * 3600000000 + mm_of a * 60000000 + ss_of a * 1000000
     + us_of a = a.
Proof.
  intros Ha. unfold hh_of, mm_of, ss_of, us_of.
  Z.div_mod_to_equations. lia.
Qed.

Lemma parse_format_offset_abs (a : Z) :
  0 <= a < 86400000000 ->
  parse_hh_mm_ss_ff (format_offset_abs a)
  = Some (hh_of a, mm_of a, ss_of a, us_of a).
Proof.
  intros Ha. destruct (offset_fields a Ha) as (Hh & Hm & Hs & Hu & _).
  unfold format_offset_abs.
  destruct ((ss_of a =? 0) && (us_of a =? 0)) eqn:E.
  - apply andb_true_iff in E as [Es Eu].
    apply Z.eqb_eq in Es, Eu. rewrite Es, Eu.
    unfold parse_hh_mm_ss_ff.
    rewrite parse_digits_pad0 by (change (10 ^ Z.of_nat 2) with 100; lia).
    unfold mbind at 1, option_bind at 1. cbv beta iota.
    cbn [expect]. rewrite Ascii.eqb_refl.
    unfold mbind at 1, option_bind at 1. cbv beta iota.
    rewrite parse_digits_pad0 by (change (10 ^ Z.of_nat 2) with 100; lia).
    reflexivity.
  - apply (parse_format_time (hh_of a) (mm_of a) (ss_of a) (us_of a));
      assumption.
Qed.

Lemma length_format_offset_abs (a : Z) :
  let n := List.length (format_offset_abs a) in
  ((n =? 5) || (n =? 8) || (n =? 15))%nat = true.
Proof.
  unfold format_offset_abs, fraction_chars.
  destruct ((ss_of a =? 0) && (us_of a =? 0));
    [|destruct (us_of a =? 0)];
    repeat (rewrite ?length_app, ?length_pad, ?length_cons, ?length_nil);
    reflexivity.
Qed.

Lemma parse_tz_format_offset (off : Z) :
  -86400000000 < off < 86400000000 ->
  parse_tz (Some (off <? 0, format_offset_abs (Z.abs off)))
  = Some (Some off).
Proof.
  intros Hoff. unfold parse_tz.
  pose proof (length_format_offset_abs (Z.abs off)) as HL.
  cbv zeta in HL. rewrite HL.
  assert (Ha : 0 <= Z.abs off < 86400000000) by lia.
  rewrite parse_format_offset_abs by exact Ha.
  destruct (offset_fields _ Ha) as (_ & _ & _ & _ & Hsum).
  unfold mbind, option_bind. cbv beta iota. rewrite Hsum.
  destruct (off <? 0) eqn:E; f_equal; f_equal.
  - apply Z.ltb_lt in E. lia.
  - apply Z.ltb_ge in E. lia.
Qed.

Lemma format_time_no_sign hh mm ss us :
  Forall (fun c => is_sign c = false) (format_time hh mm ss us).
Proof.
  unfold format_time.
  apply Forall_app; split; [apply pad_no_sign|].
  apply List.Forall_cons; [reflexivity|].
  apply Forall_app; split; [apply pad_no_sign|].
  apply List.Forall_cons; [reflexivity|].
  apply Forall_app; split; [apply pad_no_sign|].
  unfold fraction_chars. destruct (us =? 0); [constructor|].
  apply List.Forall_cons; [reflexivity | apply pad_no_sign].
Qed.

Lemma length_format_time hh mm ss us :
  (8 <= List.length (format_time hh mm ss us))%nat.
Proof.
  unfold format_time.
  repeat (rewrite ?length_app, ?length_pad, ?length_cons). lia.
Qed.

Lemma split_tz_format hh mm ss us (tz : option Z) :
  split_tz (format_time hh mm ss us ++ format_offset tz)
  = (format_time hh mm ss us,
     match tz with
     | None => None
     | Some off => Some (off <? 0, format_offset_abs (Z.abs off))
     end).
Proof.
  rewrite split_tz_app by apply format_time_no_sign.
  destruct tz as [off|]; unfold format_offset.
  - rewrite split_tz_sign by (destruct (off <? 0); reflexivity).
    cbn [fst snd]. rewrite app_nil_r.
    destruct (off <? 0); reflexivity.
  - cbn [split_tz fst snd]. now rewrite app_nil_r.
Qed.

Lemma parse_isoformat_time_format hh mm ss us (tz : option Z) :
  0 <= hh < 100 -> 0 <= mm < 100 -> 0 <= ss < 100 -> 0 <= us < 1000000 ->
  match tz with
  | None => True
  | Some off => -86400000000 < off < 86400000000
  end ->
  parse_isoformat_time (format_time hh mm ss us ++ format_offset tz)
  = Some (hh, mm, ss, us, tz).
Proof.
  intros Hh Hm Hs Hu Htz. unfold parse_isoformat_time.
  assert (HL : (List.length (format_time hh mm ss us ++ format_offset tz)
                <? 2)%nat = false).
  { apply Nat.ltb_ge. rewrite length_app.
    pose proof (length_format_time hh mm ss us). lia. }
  rewrite HL, split_tz_format, parse_format_time by assumption.
  unfold mbind at 1, option_bind at 1. cbv beta iota.
  destruct tz as [off|].
  - rewrite parse_tz_format_offset by exact Htz. reflexivity.
  - reflexivity.
Qed.

Lemma valid_ranges (dt : datetime) :
  valid dt = true ->
  1 <= year dt <= 9999 /\ 1 <= month dt <= 12 /\ 1 <= day dt <= 31
  /\ 0 <= hour dt <= 23 /\ 0 <= minute dt <= 59 /\ 0 <= second dt <= 59
  /\ 0 <= microsecond dt <= 999999
  /\ match tzinfo dt with
     | None => True
     | Some off => -86400000000 < off < 86400000000
     end.
Proof.
  unfold valid, in_range. rewrite !andb_true_iff.
  intros (((((((Hy & Hmo) & Hd) & Hh) & Hmi) & Hs) & Hus) & Htz).
  rewrite !Z.leb_le in *.
  assert (Hdim : days_in_month (year dt) (month dt) <= 31).
  { unfold days_in_month.
    repeat match goal with |- context [if ?b then _ else _] =>
      destruct b end; lia. }
  repeat split; try lia.
  destruct (tzinfo dt) as [off|]; [|exact I].
  apply andb_true_iff in Htz as [H1 H2].
  apply Z.ltb_lt in H1, H2. lia.
Qed.

Lemma parse_isoformat_date_format y mo d (rest : list ascii) :
  0 <= y < 10000 -> 0 <= mo < 100 -> 0 <= d < 100 ->
  parse_isoformat_date
    (pad 4 y ++ "-"%char :: pad 2 mo ++ "-"%char :: pad 2 d ++ rest)
  = Some (y, mo, d, rest).
Proof.
  intros Hy Hmo Hd. unfold parse_isoformat_date.
  rewrite parse_digits_pad0
    by (change (10 ^ Z.of_nat 4) with 10000; lia).
  unfold mbind at 1, option_bind at 1. cbv beta iota.
  cbn [expect]. rewrite Ascii.eqb_refl.
  unfold mbind at 1, option_bind at 1. cbv beta iota.
  rewrite parse_digits_pad0 by (change (10 ^ Z.of_nat 2) with 100; lia).
  unfold mbind at 1, option_bind at 1. cbv beta iota.
  cbn [expect]. rewrite Ascii.eqb_refl.
  unfold mbind at 1, option_bind at 1. cbv beta iota.
  rewrite parse_digits_pad0 by (change (10 ^ Z.of_nat 2) with 100; lia).
  reflexivity.
Qed.

(** [fromisoformat] is the inverse of [isoformat] on every [datetime]. *)
Lemma fromisoformat_isoformat (dt : datetime) :
  valid dt = true -> fromisoformat (isoformat dt) = Some dt.
Proof.
  intros Hv. pose proof (valid_ranges dt Hv)
    as (Hy & Hmo & Hd & Hh & Hmi & Hs & Hus & Htz).
  unfold fromisoformat, isoformat.
  rewrite list_ascii_of_string_of_list_ascii.
  unfold isoformat_chars.
  rewrite parse_isoformat_date_format by lia.
  unfold mbind at 1, option_bind at 1. cbv beta iota.
  destruct (format_time (hour dt) (minute dt) (second dt) (microsecond dt)
            ++ format_offset (tzinfo dt)) as [|c0 l0] eqn:E.
  { apply (f_equal (@List.length ascii)) in E. rewrite length_app in E.
    pose proof (length_format_time (hour dt) (minute dt) (second dt)
                  (microsecond dt)).
    simpl in E. lia. }
  rewrite <- E.
  rewrite parse_isoformat_time_format by (assumption || lia).
  unfold mbind, option_bind. cbv beta iota.
  unfold new_datetime. destruct dt. cbn [year month day hour minute second
    microsecond tzinfo] in *. now rewrite Hv.
Qed.

(** What [fromisoformat] returns passes the constructor's range checks. *)
Lemma fromisoformat_valid (s : string) (dt : datetime) :
  fromisoformat s = Some dt -> valid dt = true.
Proof.
  assert (Hnew : forall y mo d h mi sec us tz,
            new_datetime y mo d h mi sec us tz = Some dt ->
            valid dt = true).
  { intros y mo d h mi sec us tz. unfold new_datetime.
    destruct (valid _) eqn:E; [|discriminate].
    intros [= <-]. exact E. }
  unfold fromisoformat.
  destruct (parse_isoformat_date _) as [[[[y mo] d] l]|];
    [|discriminate].
  unfold mbind, option_bind. cbv beta iota.
  destruct l as [|sep tstr]; [apply Hnew|].
  destruct tstr as [|c tstr]; [apply Hnew|].
  destruct (parse_isoformat_time _) as [[[[[h mi] sec] us] tz]|];
    [apply Hnew | discriminate].
Qed.

End PyDatetimeProperties.

(** ** Transfer classification and the cache *)

Module FetcherProperties.
Import PyDatetime PyDatetimeProperties Fetcher FetcherSpec.

Lemma get_sol_price_run W st :
  get_sol_price W st = (Ok (price_now W st), bump st, [VaultGet]).
Proof.
  unfold get_sol_price, price_now, mbind, M_bind, bind, get_state, emit,
    put_state. cbn.
  destruct (vault_api W (vault_calls st)); reflexivity.
Qed.

Lemma process_transactions_run W raw_data metadata st :
  process_transactions W raw_data metadata st
  = (process_loop (price_now W st) (default ∅ (tokens metadata)) raw_data,
     bump st, [VaultGet]).
Proof.
  unfold process_transactions, mbind, M_bind, bind.
  rewrite get_sol_price_run. reflexivity.
Qed.

Lemma process_loop_kept sol_price tokens_meta raw_data out :
  process_loop sol_price tokens_meta raw_data = Ok out ->
  Forall2 (fun tx row =>
             signature row = default ""%string (r_trans_id tx)
             /\ value_usd row = tx_value_usd sol_price tokens_meta tx
             /\ Some (timestamp row)
                = fromisoformat (replace_Z (default ""%string (r_time tx))))
          (kept sol_price tokens_meta raw_data) out.
Proof.
  revert out. induction raw_data as [|tx rest IH]; intros out.
  - intros [= <-]. constructor.
  - cbn [process_loop kept List.filter].
    destruct (Qltb (tx_value_usd sol_price tokens_meta tx) MIN_VALUE_USD);
      cbn [negb]; [apply IH|].
    destruct (fromisoformat (replace_Z (default ""%string (r_time tx))))
      as [ts|] eqn:Ets; [|discriminate].
    destruct (process_loop sol_price tokens_meta rest) as [processed|e];
      [|discriminate].
    intros [= <-]. constructor; [|now apply IH].
    cbn [signature value_usd timestamp]. now rewrite Ets.
Qed.






(** *** The cache *)

Lemma set_timestamp_id {A B} (s : B) (tx : Tx A) :
  set_timestamp (timestamp tx) (set_timestamp s tx) = tx.
Proof. now destruct tx. Qed.

Lemma parse_timestamps_serialize (txs : list Transaction) :
  Forall (fun tx => valid (timestamp tx) = true) txs ->
  parse_timestamps (serialize txs) = Some txs.
Proof.
  induction 1 as [|tx txs Hv _ IH]; [reflexivity|].
  cbn [serialize map parse_timestamps]. fold (serialize txs).
  cbn [timestamp set_timestamp].
  rewrite (fromisoformat_isoformat _ Hv), IH.
  unfold mbind, option_bind. cbv beta iota.
  now rewrite set_timestamp_id.
Qed.

Lemma save_to_cache_run W txs st :
  save_to_cache W txs st
  = (Ok tt,
     {| cache_file := Stored (saved W txs); vault_calls := vault_calls st |},
     [CacheWrite (saved W txs)]).
Proof. reflexivity. Qed.

(** C7.  Saving a list of N classified transactions and loading the cache
    again yields the same list: N records, every field equal to the
    original's, every timestamp the same instant; the file holds each
    timestamp as its ISO-8601 text. *)
Theorem C7_cache_round_trip W (txs : list Transaction) st :
  Forall (fun tx => valid (timestamp tx) = true) txs ->
  exists st' ev,
    save_to_cache W txs st = (Ok tt, st', ev)
    /\ cache_file st' = Stored (saved W txs)
    /\ map timestamp (transactions (saved W txs))
       = map (fun tx => isoformat (timestamp tx)) txs
    /\ load_from_cache st'
       = (Ok (Some txs, Some (isoformat (now W))), st', [])
    /\ forall loaded updated,
         load_from_cache st' = (Ok (Some loaded, updated), st', []) ->
         List.length loaded = List.length txs /\ loaded = txs.
Proof.
  intros Hv. rewrite save_to_cache_run. eexists _, _.
  split; [reflexivity|]. split; [reflexivity|].
  assert (Hload : load_from_cache
            {| cache_file := Stored (saved W txs);
               vault_calls := vault_calls st |}
          = (Ok (Some txs, Some (isoformat (now W))),
             {| cache_file := Stored (saved W txs);
                vault_calls := vault_calls st |}, [])).
  { unfold load_from_cache, mbind, M_bind, bind, get_state, ret.
    cbn [cache_file read_cache saved transactions last_updated].
    now rewrite parse_timestamps_serialize. }
  split; [|split; [exact Hload|]].
  - unfold saved, serialize. cbn [transactions]. rewrite map_map.
    reflexivity.
  - intros loaded updated. rewrite Hload. intros [= <- _]. now split.
Qed.

Lemma C7_cache_round_trip_witness :
  exists st',
    fst (fst (load_from_cache st'))
    = Ok (Some sample_processed, Some "2025-08-20T09:30:00.000250"%string).
Proof.
  destruct (C7_cache_round_trip sample_world sample_processed empty_state)
    as (st' & ev & _ & _ & _ & Hload & _).
  - repeat constructor.
  - exists st'. rewrite Hload. reflexivity.
Defined.

(** Timestamps the classifier produces pass the constructor's checks, so
    the lists the program saves meet the hypothesis of the round trip. *)
Lemma process_loop_valid sol_price tokens_meta raw_data out :
  process_loop sol_price tokens_meta raw_data = Ok out ->
  Forall (fun tx => valid (timestamp tx) = true) out.
Proof.
  intros H. apply process_loop_kept in H.
  induction H as [|tx row l rows (_ & _ & Hts) _ IH]; constructor; auto.
  symmetry in Hts. now apply fromisoformat_valid in Hts.
Qed.

(** ** The paginated fetch *)

Lemma pages_fetched_app ev1 ev2 :
  pages_fetched (ev1 ++ ev2) = pages_fetched ev1 ++ pages_fetched ev2.
Proof. apply flat_map_app. Qed.

Lemma cache_writes_app ev1 ev2 :
  cache_writes (ev1 ++ ev2) = cache_writes ev1 ++ cache_writes ev2.
Proof. apply flat_map_app. Qed.

Lemma shift_0 st : shift st 0 = st.
Proof. destruct st. unfold shift. cbn. f_equal. lia. Qed.

Lemma shift_bump st i : shift (bump st) i = shift st (S i).
Proof. unfold shift, bump. cbn. f_equal. lia. Qed.

Lemma progress_run cb msg st :
  progress cb msg st = (Ok tt, st, progress_log cb msg).
Proof. now destruct cb. Qed.

Lemma progress_log_quiet cb msg :
  pages_fetched (progress_log cb msg) = []
  /\ cache_writes (progress_log cb msg) = []
  /\ network_calls (progress_log cb msg) = [].
Proof. now destruct cb. Qed.

(** [fetch_from_solscan] returns a tuple and leaves the state alone; it
    issues one request, or none when there is no API key; a failure carries
    an error text and no data. *)
Lemma fetch_from_solscan_run W page page_size st :
  exists raw_data metadata success error ev,
    fetch_from_solscan W page page_size st
    = (Ok (raw_data, metadata, success, error), st, ev)
    /\ (ev = [] \/ ev = [SolscanGet page page_size])
    /\ (success = true -> ev = [SolscanGet page page_size] /\ error = None)
    /\ (success = false ->
        raw_data = [] /\ exists msg, error = Some msg).
Proof.
  unfold fetch_from_solscan.
  destruct (SOLSCAN_API_KEY W) as [[|c key]|].
  - eexists _, _, _, _, _. split; [reflexivity|].
    repeat split; eauto; discriminate.
  - unfold mbind, M_bind, bind, emit.
    destruct (solscan_api W page page_size) as [msg|result].
    + eexists _, _, _, _, _. split; [reflexivity|].
      repeat split; eauto; discriminate.
    + destruct (negb (default false (e_success result)));
        eexists _, _, _, _, _; (split; [reflexivity|]);
        repeat split; eauto; discriminate.
  - eexists _, _, _, _, _. split; [reflexivity|].
    repeat split; eauto; discriminate.
Qed.

Lemma outcome_run {A} (m : M A) st r st' ev :
  m st = (r, st', ev) -> outcome m st = r.
Proof. unfold outcome. now intros ->. Qed.

(** *** One turn of the loop *)

Section LoopStep.
Variables (W : World) (cb : bool) (max_pages page : Z) (rest : list Z).
Variables (acc : list Transaction) (st : State).
Variables (raw_data : list Transfer) (metadata : Metadata).
Variables (error : option string) (evf : list Event).

Let log := progress_log cb (MsgPage page max_pages) ++ evf.

Lemma fetch_pages_fail :
  fetch_from_solscan W page 40 st
  = (Ok (raw_data, metadata, false, error), st, evf) ->
  fetch_pages W cb max_pages (page :: rest) acc st
  = (Ok (inl ([], false, error)), st, log).
Proof.
  intros Hf. cbn [fetch_pages]. unfold mbind, M_bind, bind.
  rewrite progress_run, Hf. cbn. unfold log. now rewrite app_nil_r.
Qed.

Lemma fetch_pages_empty :
  fetch_from_solscan W page 40 st = (Ok ([], metadata, true, error), st, evf) ->
  fetch_pages W cb max_pages (page :: rest) acc st = (Ok (inr acc), st, log).
Proof.
  intros Hf. cbn [fetch_pages]. unfold mbind, M_bind, bind.
  rewrite progress_run, Hf. cbn. unfold log. now rewrite app_nil_r.
Qed.

Lemma fetch_pages_raise msg :
  fetch_from_solscan W page 40 st
  = (Ok (raw_data, metadata, true, error), st, evf) ->
  raw_data <> [] ->
  outcome (process_transactions W raw_data metadata) st = Raise msg ->
  fetch_pages W cb max_pages (page :: rest) acc st
  = (Raise msg, bump st, log ++ [VaultGet]).
Proof.
  intros Hf Hne Hp. unfold outcome in Hp.
  rewrite process_transactions_run in Hp. cbn in Hp.
  cbn [fetch_pages]. unfold mbind, M_bind, bind.
  rewrite progress_run, Hf. cbn [negb].
  destruct raw_data as [|tx raw]; [contradiction|].
  rewrite process_transactions_run, Hp. unfold log.
  now rewrite <- app_assoc.
Qed.

Lemma fetch_pages_next out r st2 ev2 :
  fetch_from_solscan W page 40 st
  = (Ok (raw_data, metadata, true, error), st, evf) ->
  raw_data <> [] ->
  outcome (process_transactions W raw_data metadata) st = Ok out ->
  fetch_pages W cb max_pages rest (acc ++ out) (bump st) = (r, st2, ev2) ->
  fetch_pages W cb max_pages (page :: rest) acc st
  = (r, st2, log ++ VaultGet :: ev2).
Proof.
  intros Hf Hne Hp Hrest. unfold outcome in Hp.
  rewrite process_transactions_run in Hp. cbn in Hp.
  cbn [fetch_pages]. unfold mbind, M_bind, bind.
  rewrite progress_run, Hf. cbn [negb].
  destruct raw_data as [|tx raw]; [contradiction|].
  rewrite process_transactions_run, Hp, Hrest. unfold log.
  now rewrite <- app_assoc.
Qed.

End LoopStep.

(** *** [range] *)

Lemma range_nil lo hi : hi <= lo -> range lo hi = [].
Proof.
  intros H. unfold range. replace (Z.to_nat (hi - lo)) with 0%nat by lia.
  reflexivity.
Qed.

Lemma range_cons lo hi : lo < hi -> range lo hi = lo :: range (lo + 1) hi.
Proof.
  intros H. unfold range.
  replace (Z.to_nat (hi - lo)) with (S (Z.to_nat (hi - (lo + 1)))) by lia.
  cbn [seq map]. f_equal; [lia|].
  rewrite <- seq_shift, map_map. apply map_ext. intros i. lia.
Qed.

Lemma range_app lo mid hi :
  lo <= mid <= hi -> range lo hi = range lo mid ++ range mid hi.
Proof.
  intros H. remember (Z.to_nat (mid - lo)) as n eqn:En.
  revert lo H En. induction n as [|n IH]; intros lo H En.
  - assert (mid = lo) by lia. subst mid.
    now rewrite (range_nil lo lo) by lia.
  - rewrite (range_cons lo hi), (range_cons lo mid) by lia.
    cbn [app]. f_equal. apply IH; lia.
Qed.

Lemma length_range lo hi : List.length (range lo hi) = Z.to_nat (hi - lo).
Proof. unfold range. now rewrite length_map, length_seq. Qed.

Lemma firstn_range lo hi (n : nat) :
  (n <= Z.to_nat (hi - lo))%nat ->
  firstn n (range lo hi) = range lo (lo + Z.of_nat n).
Proof.
  intros H. destruct (Z.le_gt_cases hi lo) as [Hle|Hgt].
  { replace n with 0%nat by lia. rewrite Z.add_0_r.
    now rewrite (range_nil lo lo) by lia. }
  rewrite (range_app lo (lo + Z.of_nat n) hi) by lia.
  rewrite firstn_app, length_range.
  replace (n - Z.to_nat (lo + Z.of_nat n - lo))%nat with 0%nat by lia.
  cbn [firstn]. rewrite app_nil_r. apply firstn_all2.
  rewrite length_range. lia.
Qed.

(** *** A run of pages that all succeed with data *)

Lemma fetch_pages_prefix W cb max_pages (outs : Z -> list Transaction)
  (n : nat) :
  forall lo st rest acc,
    (forall i, (i < n)%nat ->
       good_page W (shift st i) (lo + Z.of_nat i) (outs (lo + Z.of_nat i))) ->
    exists evp,
      pages_fetched evp
      = map (fun p => (p, 40)) (range lo (lo + Z.of_nat n))
      /\ cache_writes evp = []
      /\ forall r st2 ev2,
           fetch_pages W cb max_pages rest
             (acc ++ flat_map outs (range lo (lo + Z.of_nat n)))
             (shift st n) = (r, st2, ev2) ->
           fetch_pages W cb max_pages
             (range lo (lo + Z.of_nat n) ++ rest) acc st
           = (r, st2, evp ++ ev2).
Proof.
  induction n as [|n IH]; intros lo st rest acc Hgood.
  - exists []. rewrite (range_nil lo) by lia. cbn [map flat_map app].
    rewrite shift_0, app_nil_r. auto.
  - destruct (Hgood 0%nat ltac:(lia))
      as (raw_data & metadata & error & Hne & Hf & Hp).
    rewrite shift_0, Z.add_0_r in Hf, Hp.
    destruct (fetch_from_solscan_run W lo 40 st)
      as (raw' & meta' & succ' & err' & evf & Hrun & _ & Hsucc & _).
    rewrite (outcome_run _ _ _ _ _ Hrun) in Hf.
    injection Hf as -> -> -> ->.
    destruct (Hsucc eq_refl) as [-> _].
    destruct (IH (lo + 1) (bump st) rest (acc ++ outs lo)) as
      (evp & Hpages & Hwrites & Hrest).
    { intros i Hi. rewrite shift_bump.
      replace (lo + 1 + Z.of_nat i) with (lo + Z.of_nat (S i)) by lia.
      apply Hgood. lia. }
    rewrite (range_cons lo) by lia.
    replace (lo + Z.of_nat (S n)) with (lo + 1 + Z.of_nat n) by lia.
    exists ((progress_log cb (MsgPage lo max_pages) ++ [SolscanGet lo 40])
            ++ VaultGet :: evp).
    split; [|split].
    + rewrite !pages_fetched_app.
      rewrite (proj1 (progress_log_quiet cb _)).
      change (pages_fetched [SolscanGet lo 40]) with [(lo, 40)].
      change (pages_fetched (VaultGet :: evp)) with (pages_fetched evp).
      rewrite Hpages. reflexivity.
    + rewrite !cache_writes_app.
      rewrite (proj1 (proj2 (progress_log_quiet cb _))).
      change (cache_writes [SolscanGet lo 40]) with (@nil CacheData).
      change (cache_writes (VaultGet :: evp)) with (cache_writes evp).
      rewrite Hwrites. reflexivity.
    + intros r st2 ev2 Hloop. cbn [flat_map] in Hloop.
      rewrite app_assoc, <- shift_bump in Hloop.
      apply Hrest in Hloop.
      cbn [app].
      rewrite (fetch_pages_next W cb max_pages lo
                 (range (lo + 1) (lo + 1 + Z.of_nat n) ++ rest) acc st
                 raw_data metadata error [SolscanGet lo 40] (outs lo) r st2
                 (evp ++ ev2) Hrun Hne Hp Hloop).
      cbv zeta. f_equal. now rewrite <- !app_assoc.
Qed.

(** *** The whole fetch *)

Lemma load_from_cache_run st :
  load_from_cache st = (Ok (read_cache (cache_file st)), st, []).
Proof. reflexivity. Qed.

Lemma fetch_body_hit W cb max_pages st tx txs updated :
  read_cache (cache_file st) = (Some (tx :: txs), updated) ->
  fetch_body W cb max_pages st
  = (Ok (tx :: txs, true, None), st,
     progress_log cb (MsgLoaded (List.length (tx :: txs)) updated)).
Proof.
  intros H. unfold fetch_body.
  unfold mbind at 1, M_bind at 1, bind at 1.
  rewrite load_from_cache_run, H.
  unfold mbind, M_bind, bind. rewrite progress_run. unfold ret.
  cbv beta iota. now rewrite app_nil_r.
Qed.

Lemma fetch_body_miss W cb max_pages st :
  cache_miss st ->
  fetch_body W cb max_pages st
  = match fetch_pages W cb max_pages (range 1 (max_pages + 1)) [] st with
    | (Ok (inl early), st2, ev2) =>
        (Ok early, st2, progress_log cb MsgFetching ++ ev2)
    | (Ok (inr all), st2, ev2) =>
        (Ok (all, true, None),
         {| cache_file := Stored (saved W all);
            vault_calls := vault_calls st2 |},
         progress_log cb MsgFetching
           ++ ev2 ++ progress_log cb (MsgFetched (List.length all))
           ++ [CacheWrite (saved W all)])
    | (Raise e, st2, ev2) =>
        (Raise e, st2, progress_log cb MsgFetching ++ ev2)
    end.
Proof.
  intros Hmiss. unfold fetch_body.
  unfold mbind at 1, M_bind at 1, bind at 1.
  rewrite load_from_cache_run.
  destruct (read_cache (cache_file st)) as [[[|tx txs]|] updated] eqn:E.
  2: { exfalso. apply (Hmiss tx txs). now rewrite E. }
  all: unfold mbind, M_bind, bind; rewrite progress_run;
    destruct (fetch_pages W cb max_pages (range 1 (max_pages + 1)) [] st)
      as [[[[early|all]|e] st2] ev2]; cbn [app];
    rewrite ?progress_run, ?save_to_cache_run; cbn [app mret M_ret ret];
    rewrite ?app_nil_r; try reflexivity.
Qed.

Lemma fetch_all_transactions_run W cb max_pages st :
  fetch_all_transactions W cb max_pages st
  = match fetch_body W cb max_pages st with
    | (Ok result, st', ev) => (Ok result, st', ev)
    | (Raise e, st', ev) =>
        (Ok ([], false, Some e), st', ev ++ progress_log cb (MsgError e))
    end.
Proof.
  unfold fetch_all_transactions, try_except.
  destruct (fetch_body W cb max_pages st) as [[[result|e] st'] ev];
    [reflexivity|].
  unfold mbind, M_bind, bind. rewrite progress_run. unfold ret.
  cbv beta iota. now rewrite app_nil_r.
Qed.

(** C6, as stated, fails: with a cache file that loads but holds an empty
    list, [if cached:] is false and the pages are requested again. *)
Lemma C6_empty_cache_counterexample :
  read_cache (cache_file empty_cache_state)
  = (Some [], Some "2025-08-20T09:30:00.000250"%string)
  /\ network_calls
       (snd (fetch_all_transactions sample_world false 5 empty_cache_state))
     = [SolscanGet 1 40; VaultGet; SolscanGet 2 40]
  /\ ~ cache_first_whenever_loadable.
Proof.
  split; [reflexivity|]. split; [vm_compute; reflexivity|].
  intros H.
  destruct (H sample_world false 5 empty_cache_state []
              "2025-08-20T09:30:00.000250"%string eq_refl)
    as (st' & ev & Hrun & Hnet).
  apply (f_equal snd) in Hrun. cbn [snd] in Hrun. rewrite <- Hrun in Hnet.
  vm_compute in Hnet. discriminate Hnet.
Qed.

(** C6, amended.  When the cache file loads and holds at least one
    transaction, [fetch_all_transactions] returns the cached transactions
    with success, leaves the state as it is and makes no request, whatever
    the file's [last_updated] says. *)
Theorem C6_cache_first W cb max_pages st tx txs updated :
  read_cache (cache_file st) = (Some (tx :: txs), updated) ->
  fetch_all_transactions W cb max_pages st
  = (Ok (tx :: txs, true, None), st,
     progress_log cb (MsgLoaded (List.length (tx :: txs)) updated))
  /\ network_calls
       (progress_log cb (MsgLoaded (List.length (tx :: txs)) updated)) = []
  /\ cache_writes
       (progress_log cb (MsgLoaded (List.length (tx :: txs)) updated)) = [].
Proof.
  intros H. rewrite fetch_all_transactions_run.
  rewrite (fetch_body_hit W cb max_pages st tx txs updated H).
  split; [reflexivity|]. split; apply progress_log_quiet.
Qed.

Lemma C6_cache_first_witness :
  fetch_all_transactions sample_world true 5 cached_state
  = (Ok (sample_processed, true, None), cached_state,
     [Progress (MsgLoaded 2 (Some "2025-08-20T09:30:00.000250"%string))]).
Proof.
  refine (proj1 (C6_cache_first sample_world true 5 cached_state _ _ _ _)).
  vm_compute. reflexivity.
Defined.

(** *** Runs that reach page [k] *)

Lemma fetch_pages_until W cb max_pages st k (outs : Z -> list Transaction) :
  1 <= k <= max_pages ->
  (forall p, 1 <= p < k -> good_page W (at_page st p) p (outs p)) ->
  exists evp,
    pages_fetched evp = map (fun p => (p, 40)) (range 1 k)
    /\ cache_writes evp = []
    /\ forall r st2 ev2,
         fetch_pages W cb max_pages (k :: range (k + 1) (max_pages + 1))
           (flat_map outs (range 1 k)) (at_page st k) = (r, st2, ev2) ->
         fetch_pages W cb max_pages (range 1 (max_pages + 1)) [] st
         = (r, st2, evp ++ ev2).
Proof.
  intros Hk Hgood.
  destruct (fetch_pages_prefix W cb max_pages outs (Z.to_nat (k - 1)) 1 st
              (k :: range (k + 1) (max_pages + 1)) [])
    as (evp & Hpages & Hwrites & Hrun).
  { intros i Hi.
    replace (shift st i) with (at_page st (1 + Z.of_nat i)).
    - apply Hgood. lia.
    - unfold at_page. f_equal. lia. }
  replace (1 + Z.of_nat (Z.to_nat (k - 1))) with k in * by lia.
  exists evp. split; [exact Hpages|]. split; [exact Hwrites|].
  intros r st2 ev2 Hloop.
  rewrite (range_app 1 k (max_pages + 1)) by lia.
  rewrite (range_cons k (max_pages + 1)) by lia.
  apply Hrun. exact Hloop.
Qed.

(** C4.  If, with nothing to return from the cache, the pages before page
    [k] come back with data and are processed, and page [k] fails (the
    request returns without success, or processing its records raises, as
    an unparseable timestamp does), then [fetch_all_transactions] returns an
    empty list, [False] and an error text, and the cache file is what it was:
    nothing is written, the transactions of the earlier pages included. *)
Theorem C4_page_failure W cb max_pages st k (outs : Z -> list Transaction) :
  cache_miss st ->
  1 <= k <= max_pages ->
  (forall p, 1 <= p < k -> good_page W (at_page st p) p (outs p)) ->
  (exists raw_data metadata error,
     outcome (fetch_from_solscan W k 40) (at_page st k)
     = Ok (raw_data, metadata, false, error))
  \/ (exists raw_data metadata error msg,
        raw_data <> []
        /\ outcome (fetch_from_solscan W k 40) (at_page st k)
           = Ok (raw_data, metadata, true, error)
        /\ outcome (process_transactions W raw_data metadata) (at_page st k)
           = Raise msg) ->
  exists msg st' ev,
    fetch_all_transactions W cb max_pages st
    = (Ok ([], false, Some msg), st', ev)
    /\ cache_file st' = cache_file st
    /\ cache_writes ev = [].
Proof.
  intros Hmiss Hk Hgood Hfail.
  destruct (fetch_pages_until W cb max_pages st k outs Hk Hgood)
    as (evp & _ & Hwrites & Hrun).
  destruct (fetch_from_solscan_run W k 40 (at_page st k))
    as (raw' & meta' & succ' & err' & evf & Hf & Hevf & _ & Hfalse).
  assert (Hevf' : cache_writes evf = [])
    by (destruct Hevf as [-> | ->]; reflexivity).
  rewrite fetch_all_transactions_run, (fetch_body_miss W cb max_pages st Hmiss).
  destruct Hfail as [(raw_data & metadata & error & Ho)
                    | (raw_data & metadata & error & msg & Hne & Ho & Hp)];
    rewrite (outcome_run _ _ _ _ _ Hf) in Ho; injection Ho as -> -> -> ->.
  - destruct (Hfalse eq_refl) as [_ [msg ->]].
    erewrite Hrun by (eapply fetch_pages_fail; exact Hf).
    exists msg. eexists _, _. split; [reflexivity|].
    split; [reflexivity|].
    cbv zeta. rewrite !cache_writes_app, Hwrites, Hevf'.
    now rewrite !(proj1 (proj2 (progress_log_quiet cb _))).
  - erewrite Hrun by (eapply fetch_pages_raise; eassumption).
    exists msg. eexists _, _. split; [reflexivity|].
    split; [reflexivity|].
    cbv zeta. rewrite !cache_writes_app, Hwrites, Hevf'.
    now rewrite !(proj1 (proj2 (progress_log_quiet cb _))).
Qed.

Lemma C4_page_failure_witness :
  exists msg st' ev,
    fetch_all_transactions failing_world true 5 empty_state
    = (Ok ([], false, Some msg), st', ev)
    /\ cache_file st' = cache_file empty_state
    /\ cache_writes ev = [].
Proof.
  apply (C4_page_failure failing_world true 5 empty_state 2
           (fun _ => sample_processed)).
  - intros tx txs H. discriminate H.
  - lia.
  - intros p Hp. assert (p = 1) as -> by lia.
    exists sample_page, sample_metadata, None.
    split; [discriminate|]. split; vm_compute; reflexivity.
  - right.
    exists [sample_transfer "in" (5000000000 # 1) 6 None
              "19/08/2025" "sig5" "mintUSDC"], sample_metadata, None,
           "Invalid isoformat string: '19/08/2025'"%string.
    split; [discriminate|]. split; vm_compute; reflexivity.
Defined.

(** *** The pages a run requests *)

Lemma fetch_pages_trace W cb max_pages (pages : list Z) :
  forall acc st r st2 ev,
    fetch_pages W cb max_pages pages acc st = (r, st2, ev) ->
    exists n, (n <= List.length pages)%nat
              /\ pages_fetched ev
                 = map (fun p => (p, 40)) (firstn n pages).
Proof.
  induction pages as [|page rest IH]; intros acc st r st2 ev Hrun.
  - injection Hrun as <- <- <-. exists 0%nat. split; [lia | reflexivity].
  - destruct (fetch_from_solscan_run W page 40 st)
      as (raw & meta & succ & err & evf & Hf & Hevf & Hs & _).
    assert (Hlog : forall evs,
              pages_fetched
                ((progress_log cb (MsgPage page max_pages) ++ evf) ++ evs)
              = pages_fetched evf ++ pages_fetched evs).
    { intros evs. rewrite !pages_fetched_app.
      now rewrite (proj1 (progress_log_quiet cb _)). }
    destruct succ.
    + destruct (Hs eq_refl) as [-> ->].
      destruct raw as [|tx raw].
      * rewrite (fetch_pages_empty W cb max_pages page rest acc st _ _ _ Hf)
          in Hrun.
        injection Hrun as <- <- <-. exists 1%nat.
        split; [cbn; lia|].
        rewrite <- (app_nil_r (_ ++ _)), Hlog. reflexivity.
      * destruct (outcome (process_transactions W (tx :: raw) meta) st)
          as [out|msg] eqn:Hp.
        -- destruct (fetch_pages W cb max_pages rest (acc ++ out) (bump st))
             as [[r' st'] ev'] eqn:Hrest.
           rewrite (fetch_pages_next W cb max_pages page rest acc st _ _ _ _
                      out r' st' ev' Hf ltac:(discriminate) Hp Hrest)
             in Hrun.
           injection Hrun as <- <- <-.
           destruct (IH _ _ _ _ _ Hrest) as (n & Hn & Hpages).
           exists (S n). split; [cbn; lia|].
           rewrite Hlog.
           change (pages_fetched (VaultGet :: ev')) with (pages_fetched ev').
           rewrite Hpages. reflexivity.
        -- rewrite (fetch_pages_raise W cb max_pages page rest acc st _ _ _ _
                      msg Hf ltac:(discriminate) Hp) in Hrun.
           injection Hrun as <- <- <-. exists 1%nat.
           split; [cbn; lia|]. rewrite Hlog. reflexivity.
    + rewrite (fetch_pages_fail W cb max_pages page rest acc st _ _ _ _ Hf)
        in Hrun.
      injection Hrun as <- <- <-.
      destruct Hevf as [-> | ->].
      * exists 0%nat. split; [lia|]. rewrite app_nil_r.
        apply (proj1 (progress_log_quiet cb _)).
      * exists 1%nat. split; [cbn; lia|].
        rewrite <- (app_nil_r (_ ++ _)), Hlog. reflexivity.
Qed.

Lemma fetch_all_transactions_pages W cb max_pages st :
  exists j,
    0 <= j <= Z.max 0 max_pages
    /\ pages_fetched (snd (fetch_all_transactions W cb max_pages st))
       = map (fun p => (p, 40)) (range 1 (j + 1)).
Proof.
  rewrite fetch_all_transactions_run.
  destruct (read_cache (cache_file st)) as [[[|tx txs]|] updated] eqn:E.
  2: { rewrite (fetch_body_hit W cb max_pages st tx txs updated E).
       exists 0. split; [lia|]. cbn [snd].
       apply (proj1 (progress_log_quiet cb _)). }
  all: rewrite fetch_body_miss
         by (intros tx txs; rewrite E; discriminate);
    destruct (fetch_pages W cb max_pages (range 1 (max_pages + 1)) [] st)
      as [[r st2] ev2] eqn:Hloop;
    destruct (fetch_pages_trace _ _ _ _ _ _ _ _ _ Hloop) as (n & Hn & Hpages);
    rewrite length_range in Hn;
    rewrite firstn_range in Hpages by lia;
    exists (Z.of_nat n); (split; [lia|]);
    replace (Z.of_nat n + 1) with (1 + Z.of_nat n) by lia;
    rewrite <- Hpages;
    destruct r as [[early|all]|e]; cbn [snd];
    rewrite !pages_fetched_app,
      ?(proj1 (progress_log_quiet cb _)), ?app_nil_r; reflexivity.
Qed.

(** C5.  A run requests transfer pages 1, 2, ..., j in this order, each with
    page size 40, for some j that is at most [max_pages] (5 by default).
    If, with nothing to return from the cache, the pages before page [k]
    come back with data and are processed, and page [k] comes back with zero
    records, then pages 1 to [k] are the only ones requested, the result is
    success with exactly the transactions of pages 1 to [k-1], and that list
    is written to the cache, as the last effect of the run. *)
Theorem C5_pagination W cb max_pages st :
  (exists j,
     0 <= j <= Z.max 0 max_pages
     /\ pages_fetched (snd (fetch_all_transactions W cb max_pages st))
        = map (fun p => (p, 40)) (range 1 (j + 1)))
  /\ DEFAULT_MAX_PAGES = 5
  /\ forall k (outs : Z -> list Transaction) metadata error,
       cache_miss st ->
       1 <= k <= max_pages ->
       (forall p, 1 <= p < k -> good_page W (at_page st p) p (outs p)) ->
       outcome (fetch_from_solscan W k 40) (at_page st k)
       = Ok ([], metadata, true, error) ->
       let all := flat_map outs (range 1 k) in
       exists st' ev,
         fetch_all_transactions W cb max_pages st
         = (Ok (all, true, None), st', ev ++ [CacheWrite (saved W all)])
         /\ cache_file st' = Stored (saved W all)
         /\ pages_fetched ev = map (fun p => (p, 40)) (range 1 (k + 1))
         /\ cache_writes ev = [].
Proof.
  split; [apply fetch_all_transactions_pages|]. split; [reflexivity|].
  intros k outs metadata error Hmiss Hk Hgood Hempty all.
  destruct (fetch_pages_until W cb max_pages st k outs Hk Hgood)
    as (evp & Hpages & Hwrites & Hrun).
  destruct (fetch_from_solscan_run W k 40 (at_page st k))
    as (raw' & meta' & succ' & err' & evf & Hf & _ & Hs & _).
  rewrite (outcome_run _ _ _ _ _ Hf) in Hempty.
  injection Hempty as -> -> -> ->.
  destruct (Hs eq_refl) as [-> _].
  rewrite fetch_all_transactions_run,
    (fetch_body_miss W cb max_pages st Hmiss).
  erewrite Hrun by (eapply fetch_pages_empty; exact Hf).
  fold all.
  exists {| cache_file := Stored (saved W all);
            vault_calls := vault_calls (at_page st k) |}.
  exists (progress_log cb MsgFetching
          ++ (evp ++ progress_log cb (MsgPage k max_pages)
                  ++ [SolscanGet k 40])
          ++ progress_log cb (MsgFetched (List.length all))).
  split; [|split; [reflexivity|split]].
  - f_equal. now rewrite <- !app_assoc.
  - rewrite !pages_fetched_app, Hpages.
    rewrite !(proj1 (progress_log_quiet cb _)).
    rewrite (range_app 1 k (k + 1)) by lia.
    rewrite (range_cons k (k + 1)), (range_nil (k + 1)) by lia.
    rewrite map_app, app_nil_r. reflexivity.
  - rewrite !cache_writes_app, Hwrites.
    now rewrite !(proj1 (proj2 (progress_log_quiet cb _))).
Qed.

Lemma C5_pagination_witness :
  exists st' ev,
    fetch_all_transactions sample_world true 5 empty_state
    = (Ok (sample_processed, true, None), st',
       ev ++ [CacheWrite (saved sample_world sample_processed)])
    /\ cache_file st' = Stored (saved sample_world sample_processed)
    /\ pages_fetched ev = [(1, 40); (2, 40)]
    /\ cache_writes ev = [].
Proof.
  destruct (C5_pagination sample_world true 5 empty_state) as (_ & _ & H).
  destruct (H 2 (fun _ => sample_processed) no_metadata None)
    as (st' & ev & Hrun & Hfile & Hpages & Hwrites).
  - intros tx txs E. discriminate E.
  - lia.
  - intros p Hp. assert (p = 1) as -> by lia.
    exists sample_page, sample_metadata, None.
    split; [discriminate|]. split; vm_compute; reflexivity.
  - vm_compute. reflexivity.
  - exists st', ev. repeat split; assumption.
Defined.

End FetcherProperties.

(** * Further properties of the fetcher *)

Module FetcherExtras.
Import PyDatetime PyDatetimeProperties Fetcher FetcherSpec FetcherProperties.
Import FetcherFrame FetcherExtrasSpec.

(** ** The cache operations *)

(** X1.  [clear_cache] returns whether a cache file existed (a file that
    does not decode counts), removes it and touches nothing else; after it
    the cache loads as absent, a fetch has nothing to return from the cache,
    and clearing again returns [False]. *)
Theorem clear_cache_removes (st : State) :
  exists existed st',
    clear_cache st = (Ok existed, st', [])
    /\ (existed = false <-> cache_file st = NoFile)
    /\ cache_file st' = NoFile
    /\ vault_calls st' = vault_calls st
    /\ load_from_cache st' = (Ok (None, None), st', [])
    /\ cache_miss st'
    /\ clear_cache st' = (Ok false, st', []).
Proof.
  unfold clear_cache, mbind, M_bind, bind, get_state.
  destruct st as [f n]. cbn [cache_file vault_calls].
  destruct f as [| |c]; eexists _, _;
    (split; [reflexivity|]);
    (split; [split; congruence|]);
    repeat split; intros tx txs H; discriminate H.
Qed.

Lemma parse_timestamps_none (txs : list (Tx string)) :
  parse_timestamps txs = None
  <-> Exists (fun tx => fromisoformat (timestamp tx) = None) txs.
Proof.
  induction txs as [|tx rest IH]; cbn [parse_timestamps].
  - split; [discriminate | intros H; inversion H].
  - rewrite Exists_cons, <- IH.
    destruct (fromisoformat (timestamp tx)) as [ts|];
      unfold mbind, option_bind; cbv beta iota.
    + destruct (parse_timestamps rest); split;
        [discriminate | intros [H | H]; discriminate H
        | auto | auto].
    + split; auto.
Qed.

Lemma parse_timestamps_some (txs : list (Tx string)) loaded :
  parse_timestamps txs = Some loaded ->
  Forall2 (fun stored tx =>
             fromisoformat (timestamp stored) = Some (timestamp tx)
             /\ tx = set_timestamp (timestamp tx) stored)
          txs loaded.
Proof.
  revert loaded. induction txs as [|tx rest IH]; intros loaded;
    cbn [parse_timestamps].
  - intros [= <-]. constructor.
  - destruct (fromisoformat (timestamp tx)) as [ts|] eqn:E;
      unfold mbind, option_bind; cbv beta iota; [|discriminate].
    destruct (parse_timestamps rest) as [rest'|]; [|discriminate].
    intros [= <-]. constructor; [|now apply IH].
    cbn [timestamp set_timestamp]. auto.
Qed.

(** X2.  [load_from_cache] never raises and changes nothing.  It returns
    [(None, None)] exactly when the file is missing, does not decode, or
    holds a transaction whose timestamp text does not parse: one bad
    timestamp discards the whole cache.  Otherwise it returns every stored
    transaction, in order, with its timestamp parsed and its other fields
    as stored, and the stored [last_updated]. *)
Theorem load_from_cache_all_or_nothing (st : State) :
  load_from_cache st = (Ok (read_cache (cache_file st)), st, [])
  /\ (read_cache (cache_file st) = (None, None)
      <-> cache_file st = NoFile \/ cache_file st = Unreadable
          \/ exists c, cache_file st = Stored c
                       /\ Exists (fun tx => fromisoformat (timestamp tx)
                                            = None)
                                 (transactions c))
  /\ (forall r, read_cache (cache_file st) = r ->
        r = (None, None)
        \/ exists c loaded,
             cache_file st = Stored c
             /\ r = (Some loaded, Some (last_updated c))
             /\ Forall2 (fun stored tx =>
                           fromisoformat (timestamp stored)
                           = Some (timestamp tx)
                           /\ tx = set_timestamp (timestamp tx) stored)
                        (transactions c) loaded).
Proof.
  split; [reflexivity|].
  destruct (cache_file st) as [| |c]; cbn [read_cache].
  - split; [split; auto|]. intros r <-. now left.
  - split; [split; auto|]. intros r <-. now left.
  - destruct (parse_timestamps (transactions c)) as [loaded|] eqn:E.
    + split.
      * split; [discriminate|].
        intros [H | [H | (c' & [= <-] & Hex)]]; try discriminate H.
        apply parse_timestamps_none in Hex. congruence.
      * intros r <-. right. exists c, loaded.
        repeat split. now apply parse_timestamps_some.
    + split.
      * split; [|reflexivity]. intros _. right. right. exists c.
        split; [reflexivity|]. now apply parse_timestamps_none.
      * intros r <-. now left.
Qed.

(** ** [get_sol_price] *)

Lemma wsol_price_first before vault after :
  no_wsol before ->
  (st ← pv_supplyToken vault; pt_symbol st) = Some "WSOL"%string ->
  wsol_price (before ++ vault :: after)
  = default (150 # 1) (st ← pv_supplyToken vault; pt_price st).
Proof.
  intros Hno Hv. induction Hno as [|v0 before Hv0 _ IH];
    cbn [app wsol_price].
  - rewrite Hv. rewrite bool_decide_eq_true_2 by reflexivity.
    now destruct (st ← pv_supplyToken vault; pt_price st).
  - rewrite bool_decide_eq_false_2 by exact Hv0. exact IH.
Qed.

Lemma wsol_price_none vaults : no_wsol vaults -> wsol_price vaults = 150 # 1.
Proof.
  induction 1 as [|v0 vaults Hv0 _ IH]; cbn [wsol_price]; [reflexivity|].
  now rewrite bool_decide_eq_false_2 by exact Hv0.
Qed.

(** X3.  [get_sol_price] never raises and makes exactly one request to the
    vault API.  It returns 150 when the request fails or no vault has WSOL
    as its supply token; otherwise it returns the price of the first such
    vault, or 150 when that vault has no price, whatever later vaults
    say. *)
Theorem get_sol_price_fallback (W : World) (st : State) :
  exists sol_price,
    get_sol_price W st = (Ok sol_price, bump st, [VaultGet])
    /\ (vault_api W (vault_calls st) = VaultError -> sol_price = 150 # 1)
    /\ (forall vaults,
          vault_api W (vault_calls st) = VaultJson vaults ->
          (no_wsol vaults -> sol_price = 150 # 1)
          /\ (forall before vault after,
                vaults = before ++ vault :: after ->
                no_wsol before ->
                (t ← pv_supplyToken vault; pt_symbol t)
                = Some "WSOL"%string ->
                sol_price
                = default (150 # 1)
                    (t ← pv_supplyToken vault; pt_price t))).
Proof.
  exists (price_now W st). split; [apply get_sol_price_run|].
  unfold price_now. split.
  - now intros ->.
  - intros vaults ->. split.
    + apply wsol_price_none.
    + intros before vault after -> Hno Hv. now apply wsol_price_first.
Qed.

(** ** [fetch_from_solscan] *)

Lemma network_calls_app ev1 ev2 :
  network_calls (ev1 ++ ev2) = network_calls ev1 ++ network_calls ev2.
Proof. apply List.filter_app. Qed.

Lemma fetch_from_solscan_cases (W : World) (page page_size : Z)
  (st : State) :
  exists raw_data metadata success error ev,
    fetch_from_solscan W page page_size st
    = (Ok (raw_data, metadata, success, error), st, ev)
    /\ (no_api_key W ->
        ev = [] /\ success = false
        /\ error = Some "SOLSCAN_API_KEY not found in environment variables"%string)
    /\ (~ no_api_key W -> ev = [SolscanGet page page_size])
    /\ (success = false ->
        raw_data = [] /\ metadata = no_metadata
        /\ exists msg, error = Some msg)
    /\ (success = true ->
        error = None
        /\ exists result,
             solscan_api W page page_size = SolscanJson result
             /\ e_success result = Some true
             /\ raw_data = default [] (e_data result)
             /\ metadata = default no_metadata (e_metadata result)).
Proof.
  unfold fetch_from_solscan, no_api_key.
  destruct (SOLSCAN_API_KEY W) as [[|c key]|].
  - eexists _, _, _, _, _. split; [reflexivity|].
    repeat split; eauto; try discriminate.
    intros Hn. exfalso. apply Hn. auto.
  - unfold mbind, M_bind, bind, emit.
    destruct (solscan_api W page page_size) as [msg|result].
    + eexists _, _, _, _, _. split; [reflexivity|].
      repeat split; eauto; try discriminate;
        match goal with
        | H : _ \/ _ |- _ => destruct H as [H | H]; discriminate H
        end.
    + destruct (e_success result) as [[|]|] eqn:Es; cbn [default negb];
        eexists _, _, _, _, _; (split; [reflexivity|]);
        repeat split; eauto; try discriminate;
        try match goal with
            | H : _ \/ _ |- _ => destruct H as [H | H]; discriminate H
            end.
  - eexists _, _, _, _, _. split; [reflexivity|].
    repeat split; eauto; try discriminate.
    intros Hn. exfalso. apply Hn. auto.
Qed.

(** X4.  [fetch_from_solscan] never raises and leaves the state alone.
    Without an API key it makes no request and fails with the text
    "SOLSCAN_API_KEY not found in environment variables"; with a key it
    makes exactly one request, for the page and page size asked.  A failure
    carries no data, no metadata and an error text; a success carries no
    error text. *)
Theorem fetch_from_solscan_outcomes (W : World) (page page_size : Z)
  (st : State) :
  exists raw_data metadata success error ev,
    fetch_from_solscan W page page_size st
    = (Ok (raw_data, metadata, success, error), st, ev)
    /\ (no_api_key W ->
        ev = [] /\ success = false
        /\ error = Some "SOLSCAN_API_KEY not found in environment variables"%string)
    /\ (~ no_api_key W -> ev = [SolscanGet page page_size])
    /\ (success = false ->
        raw_data = [] /\ metadata = no_metadata
        /\ exists msg, error = Some msg)
    /\ (success = true ->
        error = None
        /\ exists result,
             solscan_api W page page_size = SolscanJson result
             /\ e_success result = Some true
             /\ raw_data = default [] (e_data result)
             /\ metadata = default no_metadata (e_metadata result)).
Proof. apply fetch_from_solscan_cases. Qed.

(** X5.  Without an API key and with nothing to return from the cache,
    [fetch_all_transactions] (for [max_pages >= 1]) fails at once: it makes
    no request to either API, writes no cache, leaves the state as it was
    and returns the missing-key text as its error. *)
Theorem fetch_all_transactions_no_key (W : World) cb max_pages st :
  no_api_key W -> cache_miss st -> 1 <= max_pages ->
  exists ev,
    fetch_all_transactions W cb max_pages st
    = (Ok ([], false,
           Some "SOLSCAN_API_KEY not found in environment variables"%string),
       st, ev)
    /\ network_calls ev = []
    /\ cache_writes ev = [].
Proof.
  intros Hkey Hmiss Hmax.
  destruct (fetch_from_solscan_cases W 1 40 st)
    as (raw & meta & succ & err & evf & Hf & Hno & _).
  destruct (Hno Hkey) as (-> & -> & ->).
  rewrite fetch_all_transactions_run, (fetch_body_miss W cb max_pages st Hmiss).
  rewrite (range_cons 1) by lia.
  rewrite (fetch_pages_fail W cb max_pages 1 _ [] st raw meta _ [] Hf).
  eexists. split; [reflexivity|].
  rewrite app_nil_r, network_calls_app, cache_writes_app.
  rewrite !(proj2 (proj2 (progress_log_quiet cb _))).
  now rewrite !(proj1 (proj2 (progress_log_quiet cb _))).
Qed.

Lemma fetch_all_transactions_no_key_witness :
  exists ev,
    fetch_all_transactions keyless_world true 5 empty_state
    = (Ok ([], false,
           Some "SOLSCAN_API_KEY not found in environment variables"%string),
       empty_state, ev)
    /\ network_calls ev = [] /\ cache_writes ev = [].
Proof.
  apply (fetch_all_transactions_no_key keyless_world true 5 empty_state).
  - left. reflexivity.
  - intros tx txs H. discriminate H.
  - lia.
Defined.

(** ** [process_transactions] *)




(** X7.  Processing a page made of two parts returns the rows of the first
    part followed by the rows of the second; it raises as soon as one part
    does, with the exception of the first part that raises. *)
Theorem process_loop_app sol_price tokens_meta (first second : list Transfer) :
  process_loop sol_price tokens_meta (first ++ second)
  = match process_loop sol_price tokens_meta first with
    | Raise e => Raise e
    | Ok out1 =>
        match process_loop sol_price tokens_meta second with
        | Raise e => Raise e
        | Ok out2 => Ok (out1 ++ out2)
        end
    end.
Proof.
  induction first as [|tx rest IH]; cbn [app process_loop].
  - now destruct (process_loop sol_price tokens_meta second).
  - destruct (Qltb (tx_value_usd sol_price tokens_meta tx) MIN_VALUE_USD);
      [exact IH|].
    destruct (fromisoformat (replace_Z (default ""%string (r_time tx))));
      [|reflexivity].
    rewrite IH.
    destruct (process_loop sol_price tokens_meta rest); [|reflexivity].
    now destruct (process_loop sol_price tokens_meta second).
Qed.

Lemma process_loop_fields sol_price tokens_meta raw_data out :
  process_loop sol_price tokens_meta raw_data = Ok out ->
  Forall2 (fun tx (row : Transaction) =>
             type_ row = (if String.eqb (tx_flow tx) "in"
                          then "Inflow" else "Outflow")%string
             /\ counterparty row = tx_counterparty tx
             /\ team row = default "Unknown"%string
                             (ADDRESS_TAGS !! tx_counterparty tx)
             /\ token row = tx_token_symbol tokens_meta tx
             /\ amount row = tx_amount tx
             /\ value_usd row = tx_value_usd sol_price tokens_meta tx
             /\ block_id row = default 0%Z (r_block_id tx))
          (kept sol_price tokens_meta raw_data) out.
Proof.
  revert out. induction raw_data as [|tx rest IH]; intros out.
  - intros [= <-]. constructor.
  - cbn [process_loop kept List.filter].
    destruct (Qltb (tx_value_usd sol_price tokens_meta tx) MIN_VALUE_USD);
      cbn [negb]; [apply IH|].
    destruct (fromisoformat (replace_Z (default ""%string (r_time tx))))
      as [ts|]; [|discriminate].
    destruct (process_loop sol_price tokens_meta rest) as [processed|e];
      [|discriminate].
    intros [= <-]. constructor; [|now apply IH].
    cbn. repeat split.
Qed.

(** X8.  In every row [process_transactions] returns, the direction is
    "Inflow" with the sender as counterparty when the record's flow is
    "in", and "Outflow" with the receiver as counterparty for any other
    flow, a missing one included; the team is the tag of the counterparty or
    "Unknown"; a missing decimals entry counts as 6; and a row whose token
    is a stablecoin is valued at its amount, whatever the record's own
    ['value'] and the SOL price. *)
Theorem process_transactions_classifies (W : World) raw_data metadata st
  out st' ev :
  process_transactions W raw_data metadata st = (Ok out, st', ev) ->
  Forall2 (fun tx (row : Transaction) =>
             (r_flow tx = Some "in"%string ->
              type_ row = "Inflow"%string
              /\ counterparty row = default ""%string (r_from_address tx))
             /\ (r_flow tx <> Some "in"%string ->
                 type_ row = "Outflow"%string
                 /\ counterparty row = default ""%string (r_to_address tx))
             /\ (team row = "Unknown"%string
                 \/ ADDRESS_TAGS !! counterparty row = Some (team row))
             /\ (r_token_decimals tx = None ->
                 amount row = (default 0 (r_amount tx) / pow10 6)%Q)
             /\ (In (token row) ["USDC"; "USDT"; "USDS"; "USDG"; "EURC"]%string
                 -> (value_usd row == amount row)%Q))
          (kept (price_now W st) (default ∅ (tokens metadata)) raw_data) out.
Proof.
  rewrite process_transactions_run. intros [= Hloop _ _].
  apply process_loop_fields in Hloop.
  induction Hloop as [|tx row l rows (Hty & Hcp & Hteam & Htok & Ham & Hv & _)
                        _ IH]; constructor; [|exact IH].
  unfold tx_counterparty, tx_flow in *.
  split; [|split; [|split; [|split]]].
  - intros Hin. rewrite Hin in *. cbn in Hty, Hcp. auto.
  - intros Hout.
    destruct (String.eqb (default ""%string (r_flow tx)) "in") eqn:E;
      [|auto].
    apply String.eqb_eq in E. exfalso. apply Hout.
    destruct (r_flow tx) as [f|]; cbn in E; [now subst | discriminate].
  - rewrite Hteam, Hcp.
    destruct (ADDRESS_TAGS !! _) as [t|]; cbn; auto.
  - intros Hd. rewrite Ham. unfold tx_amount. now rewrite Hd.
  - intros Hin. rewrite Hv, Ham. unfold tx_value_usd.
    rewrite <- Htok. apply str_in_spec in Hin. rewrite Hin. ring.
Qed.

Lemma process_transactions_classifies_witness :
  map (fun row : Transaction => (type_ row, team row)) sample_processed
  = [("Inflow", "JUP Team"); ("Outflow", "Maple")]%string
  /\ Forall2 (fun tx (row : Transaction) =>
                r_flow tx <> Some "in"%string ->
                type_ row = "Outflow"%string
                /\ counterparty row = default ""%string (r_to_address tx))
             (kept (price_now sample_world empty_state)
                   (default ∅ (tokens sample_metadata)) sample_page)
             sample_processed.
Proof.
  split; [reflexivity|].
  eapply Forall2_impl;
    [apply (process_transactions_classifies sample_world sample_page
              sample_metadata empty_state sample_processed
              (bump empty_state) [VaultGet]); vm_compute; reflexivity|].
  cbv beta. intros tx row H. apply H.
Defined.

(** ** [fetch_all_transactions] *)

(** What the loop leaves behind: the cache file is untouched and unwritten;
    a [return] from inside it is a failure with an error text; the list it
    accumulates holds valid timestamps. *)
Lemma fetch_pages_outcome W cb max_pages (pages : list Z) :
  forall acc st r st2 ev,
    fetch_pages W cb max_pages pages acc st = (r, st2, ev) ->
    valid_timestamps acc ->
    cache_file st2 = cache_file st
    /\ cache_writes ev = []
    /\ match r with
       | Ok (inl early) => exists msg, early = ([], false, Some msg)
       | Ok (inr all) => valid_timestamps all
       | Raise _ => True
       end.
Proof.
  induction pages as [|page rest IH]; intros acc st r st2 ev Hrun Hacc.
  - injection Hrun as <- <- <-. auto.
  - destruct (fetch_from_solscan_run W page 40 st)
      as (raw & meta & succ & err & evf & Hf & Hevf & Hs & Hfalse).
    assert (Hevf' : cache_writes evf = [])
      by (destruct Hevf as [-> | ->]; reflexivity).
    assert (Hlog : forall evs,
              cache_writes
                ((progress_log cb (MsgPage page max_pages) ++ evf) ++ evs)
              = cache_writes evs).
    { intros evs. rewrite !cache_writes_app, Hevf'.
      now rewrite (proj1 (proj2 (progress_log_quiet cb _))). }
    destruct succ.
    + destruct raw as [|tx raw].
      * rewrite (fetch_pages_empty W cb max_pages page rest acc st _ _ _ Hf)
          in Hrun.
        injection Hrun as <- <- <-.
        rewrite <- (app_nil_r (_ ++ _)), Hlog. auto.
      * destruct (outcome (process_transactions W (tx :: raw) meta) st)
          as [out|msg] eqn:Hp.
        -- destruct (fetch_pages W cb max_pages rest (acc ++ out) (bump st))
             as [[r' st'] ev'] eqn:Hrest.
           rewrite (fetch_pages_next W cb max_pages page rest acc st _ _ _ _
                      out r' st' ev' Hf ltac:(discriminate) Hp Hrest)
             in Hrun.
           injection Hrun as <- <- <-.
           assert (Hout : valid_timestamps out).
           { unfold outcome in Hp. rewrite process_transactions_run in Hp.
             cbn [fst] in Hp. eapply process_loop_valid; exact Hp. }
           destruct (IH _ _ _ _ _ Hrest) as (Hfile & Hw & Hr).
           { apply Forall_app. split; assumption. }
           rewrite Hlog.
           change (cache_writes (VaultGet :: ev')) with (cache_writes ev').
           auto.
        -- rewrite (fetch_pages_raise W cb max_pages page rest acc st _ _ _ _
                      msg Hf ltac:(discriminate) Hp) in Hrun.
           injection Hrun as <- <- <-. rewrite Hlog. auto.
    + rewrite (fetch_pages_fail W cb max_pages page rest acc st _ _ _ _ Hf)
        in Hrun.
      injection Hrun as <- <- <-.
      destruct (Hfalse eq_refl) as [_ [msg ->]].
      rewrite <- (app_nil_r (_ ++ _)), Hlog. eauto.
Qed.

Lemma fetch_all_transactions_shape (W : World) cb max_pages st :
  exists txs success error st' ev,
    fetch_all_transactions W cb max_pages st
    = (Ok (txs, success, error), st', ev)
    /\ (success = true -> error = None)
    /\ (success = false ->
        txs = [] /\ (exists msg, error = Some msg)
        /\ cache_file st' = cache_file st /\ cache_writes ev = [])
    /\ (cache_writes ev = []
        \/ (cache_writes ev = [saved W txs]
            /\ cache_file st' = Stored (saved W txs)
            /\ success = true)).
Proof.
  rewrite fetch_all_transactions_run.
  destruct (read_cache (cache_file st)) as [[[|tx txs]|] updated] eqn:E.
  2: { rewrite (fetch_body_hit W cb max_pages st tx txs updated E).
       eexists _, _, _, _, _. split; [reflexivity|].
       split; [reflexivity|]. split; [discriminate|].
       left. apply progress_log_quiet. }
  all: rewrite fetch_body_miss
         by (intros tx txs; rewrite E; discriminate);
    destruct (fetch_pages W cb max_pages (range 1 (max_pages + 1)) [] st)
      as [[r st2] ev2] eqn:Hloop;
    destruct (fetch_pages_outcome _ _ _ _ _ _ _ _ _ Hloop (List.Forall_nil _))
      as (Hfile & Hw & Hr);
    destruct r as [[early|all]|e];
    [ destruct Hr as [msg ->]
    | | ];
    eexists _, _, _, _, _; (split; [reflexivity|]);
    rewrite ?cache_writes_app, ?Hw,
      ?(proj1 (proj2 (progress_log_quiet cb _)));
    cbn [app cache_writes flat_map cache_file];
    (split; [try reflexivity; discriminate|]);
    (split; [try discriminate; intros _; eauto|]);
    auto.
Qed.

(** X9.  [fetch_all_transactions] never raises.  A success carries no error
    text; a failure carries an empty list and an error text, leaves the
    cache file as it was and writes nothing.  The cache is written at most
    once in a run, only on success, and then with exactly the list that is
    returned. *)
Theorem fetch_all_transactions_result (W : World) cb max_pages st :
  exists txs success error st' ev,
    fetch_all_transactions W cb max_pages st
    = (Ok (txs, success, error), st', ev)
    /\ (success = true -> error = None)
    /\ (success = false ->
        txs = [] /\ (exists msg, error = Some msg)
        /\ cache_file st' = cache_file st /\ cache_writes ev = [])
    /\ (cache_writes ev = []
        \/ (cache_writes ev = [saved W txs]
            /\ cache_file st' = Stored (saved W txs)
            /\ success = true)).
Proof. apply fetch_all_transactions_shape. Qed.

(** X10.  With nothing to return from the cache and [max_pages <= 0] the
    loop runs over no page: no request is made, the result is success with
    an empty list, and an empty list is written to the cache. *)
Theorem fetch_all_transactions_no_pages (W : World) cb max_pages st :
  cache_miss st -> max_pages <= 0 ->
  exists st' ev,
    fetch_all_transactions W cb max_pages st = (Ok ([], true, None), st', ev)
    /\ cache_file st' = Stored (saved W [])
    /\ network_calls ev = []
    /\ cache_writes ev = [saved W []].
Proof.
  intros Hmiss Hmax.
  rewrite fetch_all_transactions_run, (fetch_body_miss W cb max_pages st Hmiss).
  rewrite range_nil by lia. cbn [fetch_pages ret].
  eexists _, _. split; [reflexivity|]. split; [reflexivity|].
  rewrite !network_calls_app, !cache_writes_app.
  rewrite !(proj2 (proj2 (progress_log_quiet cb _))).
  rewrite !(proj1 (proj2 (progress_log_quiet cb _))).
  split; reflexivity.
Qed.

Lemma fetch_all_transactions_no_pages_witness :
  exists st' ev,
    fetch_all_transactions sample_world true 0 empty_state
    = (Ok ([], true, None), st', ev)
    /\ cache_file st' = Stored (saved sample_world [])
    /\ network_calls ev = []
    /\ cache_writes ev = [saved sample_world []].
Proof.
  apply (fetch_all_transactions_no_pages sample_world true 0 empty_state).
  - intros tx txs H. discriminate H.
  - lia.
Defined.

(** X11.  When every page from 1 to [max_pages] comes back with data and
    is processed, the loop stops at the page cap: exactly the pages 1 to
    [max_pages] are requested, the result is success with the transactions
    of all of them in page order, and that list is written to the cache. *)
Theorem fetch_all_transactions_page_cap (W : World) cb max_pages st
  (outs : Z -> list Transaction) :
  cache_miss st ->
  0 <= max_pages ->
  (forall p, 1 <= p <= max_pages -> good_page W (at_page st p) p (outs p)) ->
  let all := flat_map outs (range 1 (max_pages + 1)) in
  exists st' ev,
    fetch_all_transactions W cb max_pages st
    = (Ok (all, true, None), st', ev ++ [CacheWrite (saved W all)])
    /\ cache_file st' = Stored (saved W all)
    /\ pages_fetched ev = map (fun p => (p, 40)) (range 1 (max_pages + 1))
    /\ cache_writes ev = [].
Proof.
  intros Hmiss Hmax Hgood all.
  destruct (fetch_pages_prefix W cb max_pages outs (Z.to_nat max_pages) 1 st
              [] [])
    as (evp & Hpages & Hwrites & Hrun).
  { intros i Hi.
    replace (shift st i) with (at_page st (1 + Z.of_nat i)).
    - apply Hgood. lia.
    - unfold at_page. f_equal. lia. }
  replace (1 + Z.of_nat (Z.to_nat max_pages)) with (max_pages + 1) in * by lia.
  fold all in Hrun. cbn [app fetch_pages] in Hrun.
  specialize (Hrun _ _ _ eq_refl). rewrite app_nil_r in Hrun.
  rewrite fetch_all_transactions_run,
    (fetch_body_miss W cb max_pages st Hmiss), Hrun.
  exists {| cache_file := Stored (saved W all);
            vault_calls := vault_calls (shift st (Z.to_nat max_pages)) |}.
  exists (progress_log cb MsgFetching
          ++ (evp ++ [])
          ++ progress_log cb (MsgFetched (List.length all))).
  split; [|split; [reflexivity|split]].
  - f_equal. now rewrite <- !app_assoc.
  - rewrite !pages_fetched_app, Hpages.
    rewrite !(proj1 (progress_log_quiet cb _)). now rewrite !app_nil_r.
  - rewrite !cache_writes_app, Hwrites.
    now rewrite !(proj1 (proj2 (progress_log_quiet cb _))).
Qed.

Lemma fetch_all_transactions_page_cap_witness :
  exists st' ev,
    fetch_all_transactions sample_world false 1 empty_state
    = (Ok (sample_processed, true, None), st',
       ev ++ [CacheWrite (saved sample_world sample_processed)])
    /\ pages_fetched ev = [(1, 40)].
Proof.
  destruct (fetch_all_transactions_page_cap sample_world false 1 empty_state
              (fun _ => sample_processed))
    as (st' & ev & Hrun & _ & Hpages & _).
  - intros tx txs E. discriminate E.
  - lia.
  - intros p Hp. assert (p = 1) as -> by lia.
    exists sample_page, sample_metadata, None.
    split; [discriminate|]. split; vm_compute; reflexivity.
  - exists st', ev. split; assumption.
Defined.

(** X12.  After a run that succeeded with at least one transaction, the
    next run, whatever the APIs would answer and whatever its arguments,
    returns the same list from the cache and makes no request. *)
Theorem fetch_all_transactions_then_cached (W : World) cb max_pages st
  txs st' ev :
  fetch_all_transactions W cb max_pages st = (Ok (txs, true, None), st', ev) ->
  txs <> [] ->
  forall (W2 : World) cb2 max_pages2,
  exists ev2,
    fetch_all_transactions W2 cb2 max_pages2 st'
    = (Ok (txs, true, None), st', ev2)
    /\ network_calls ev2 = []
    /\ cache_writes ev2 = [].
Proof.
  rewrite fetch_all_transactions_run. intros Hrun Hne W2 cb2 max_pages2.
  assert (Hhit : exists tx rest updated,
            txs = tx :: rest
            /\ read_cache (cache_file st') = (Some (tx :: rest), updated)).
  { destruct (read_cache (cache_file st)) as [[[|tx rest]|] updated] eqn:E.
    2: { rewrite (fetch_body_hit W cb max_pages st tx rest updated E) in Hrun.
         injection Hrun as <- <- _. eauto. }
    all: rewrite fetch_body_miss in Hrun
           by (intros tx rest; rewrite E; discriminate);
      destruct (fetch_pages W cb max_pages (range 1 (max_pages + 1)) [] st)
        as [[r st2] ev0] eqn:Hloop;
      destruct (fetch_pages_outcome _ _ _ _ _ _ _ _ _ Hloop
                  (List.Forall_nil _)) as (_ & _ & Hr);
      destruct r as [[early|all]|e];
      [ destruct Hr as [msg ->]; discriminate Hrun
      | injection Hrun as <- <- _;
        destruct all as [|tx rest]; [contradiction|];
        exists tx, rest, (Some (isoformat (now W)));
        split; [reflexivity|];
        cbn [cache_file read_cache saved transactions last_updated];
        now rewrite (parse_timestamps_serialize _ Hr)
      | discriminate Hrun ]. }
  destruct Hhit as (tx & rest & updated & -> & Hread).
  rewrite fetch_all_transactions_run,
    (fetch_body_hit W2 cb2 max_pages2 st' tx rest updated Hread).
  eexists. split; [reflexivity|]. split; apply progress_log_quiet.
Qed.

Lemma fetch_all_transactions_then_cached_witness :
  exists ev2,
    fetch_all_transactions failing_world false 3 cached_state
    = (Ok (sample_processed, true, None), cached_state, ev2)
    /\ network_calls ev2 = [] /\ cache_writes ev2 = [].
Proof.
  apply (fetch_all_transactions_then_cached sample_world false 5 empty_state
           sample_processed cached_state
           (snd (fetch_all_transactions sample_world false 5 empty_state))).
  - vm_compute. reflexivity.
  - discriminate.
Defined.


(** ** Times with the [Z] suffix *)

Lemma string_of_list_ascii_app (l1 l2 : list ascii) :
  string_of_list_ascii (l1 ++ l2)
  = (string_of_list_ascii l1 ++ string_of_list_ascii l2)%string.
Proof. induction l1 as [|c l1 IH]; cbn; [reflexivity | now rewrite IH]. Qed.

Lemma replace_Z_prefix (l : list ascii) (s : string) :
  Forall (fun c => Ascii.eqb c "Z" = false) l ->
  replace_Z (string_of_list_ascii l ++ s)
  = (string_of_list_ascii l ++ replace_Z s)%string.
Proof.
  induction 1 as [|c l Hc _ IH]; [reflexivity|].
  change (replace_Z (String c (string_of_list_ascii l ++ s))
          = String c (string_of_list_ascii l ++ replace_Z s)).
  cbn [replace_Z]. now rewrite Hc, IH.
Qed.

Lemma digit_char_not_Z (n : Z) : Ascii.eqb (digit_char n) "Z" = false.
Proof.
  unfold digit_char.
  destruct (digit_cases n) as
    [E|[E|[E|[E|[E|[E|[E|[E|[E|E]]]]]]]]]; rewrite E; reflexivity.
Qed.

Lemma pad_no_Z k n : Forall (fun c => Ascii.eqb c "Z" = false) (pad k n).
Proof.
  revert n. induction k as [|k IH]; intros n; cbn [pad].
  - constructor.
  - apply Forall_app. split; [apply IH|].
    apply List.Forall_cons; [apply digit_char_not_Z | constructor].
Qed.

Lemma isoformat_chars_no_Z (dt : datetime) :
  tzinfo dt = None ->
  Forall (fun c => Ascii.eqb c "Z" = false) (isoformat_chars dt).
Proof.
  intros Htz. unfold isoformat_chars, format_time, fraction_chars.
  rewrite Htz. cbn [format_offset].
  repeat first
    [ apply Forall_app; split; [apply pad_no_Z|]
    | apply List.Forall_cons; [reflexivity|] ].
  apply Forall_app. split; [|constructor].
  apply Forall_app. split; [apply pad_no_Z|].
  apply List.Forall_cons; [reflexivity|].
  apply Forall_app. split; [apply pad_no_Z|].
  apply List.Forall_cons; [reflexivity|].
  apply Forall_app. split; [apply pad_no_Z|].
  destruct (microsecond dt =? 0); [constructor|].
  apply List.Forall_cons; [reflexivity | apply pad_no_Z].
Qed.

(** X14.  A time written as the ISO text of a date and time followed by
    [Z], the form the transfer API uses for UTC, is read by the classifier
    as that date and time at UTC offset 0: the [Z] is rewritten to [+00:00]
    and the text parses. *)
Theorem z_suffix_is_utc (dt : datetime) :
  valid dt = true -> tzinfo dt = None ->
  replace_Z (isoformat dt ++ "Z") = isoformat (at_utc dt)
  /\ fromisoformat (replace_Z (isoformat dt ++ "Z")) = Some (at_utc dt).
Proof.
  intros Hv Htz.
  assert (Hv' : valid (at_utc dt) = true).
  { unfold valid in *. cbn [at_utc year month day hour minute second
      microsecond tzinfo]. rewrite Htz in Hv.
    rewrite andb_true_r in Hv. rewrite Hv. reflexivity. }
  assert (Htext : replace_Z (isoformat dt ++ "Z") = isoformat (at_utc dt)).
  { unfold isoformat.
    rewrite replace_Z_prefix by (apply isoformat_chars_no_Z; exact Htz).
    change (replace_Z "Z")
      with (string_of_list_ascii
              ["+"; "0"; "0"; ":"; "0"; "0"]%char).
    rewrite <- string_of_list_ascii_app. f_equal.
    unfold isoformat_chars. rewrite Htz.
    cbn [at_utc year month day hour minute second microsecond tzinfo
         format_offset].
    change (format_offset_abs (Z.abs 0))
      with ["0"; "0"; ":"; "0"; "0"]%char.
    rewrite app_nil_r.
    repeat (rewrite <- ?app_assoc; rewrite <- ?app_comm_cons; f_equal). }
  split; [exact Htext|].
  rewrite Htext. apply fromisoformat_isoformat. exact Hv'.
Qed.

Lemma z_suffix_is_utc_witness :
  fromisoformat (replace_Z "2025-08-19T11:30:00Z")
  = Some {| year := 2025; month := 8; day := 19; hour := 11; minute := 30;
            second := 0; microsecond := 0; tzinfo := Some 0 |}.
Proof.
  apply (z_suffix_is_utc
           {| year := 2025; month := 8; day := 19; hour := 11; minute := 30;
              second := 0; microsecond := 0; tzinfo := None |});
    reflexivity.
Defined.

End FetcherExtras.

(** * Further properties of the dashboard *)

Section DashboardExtras.
Import Dashboard DashboardViews DashboardSamples DashboardExtrasSpec.
Local Open Scope Q_scope.

(** ** Lending rows *)


(** ** The responsible party of a vault *)

Lemma vault_mapping_types (pair : string) (info : MappingInfo) :
  VAULT_MAPPING !! pair = Some info ->
  (mi_type info = "supply"%string \/ mi_type info = "borrow"%string)
  /\ mi_team info <> "Unknown"%string.
Proof.
  intros H. apply elem_of_list_to_map_2 in H.
  repeat (apply elem_of_cons in H as [H | H];
          [injection H as _ ->; split; [auto | discriminate]|]).
  now apply elem_of_nil in H.
Qed.

(** X16.  The incentive type of a vault row is "Supply", "Borrow" or
    "Unknown", and it is "Unknown" exactly when the responsible party is
    "Unknown", which is exactly when the pair "supply/borrow" is not a key
    of the vault mapping. *)
Theorem vault_row_responsibility (vault : Vault) :
  let row := vault_row vault in
  (Incentive_Type row = "Supply"%string
   \/ Incentive_Type row = "Borrow"%string
   \/ Incentive_Type row = "Unknown"%string)
  /\ Vault_Pair row
     = (symbol (supplyToken vault) ++ "/" ++ symbol (borrowToken vault))%string
  /\ (Incentive_Type row = "Unknown"%string
      <-> Responsible_Party row = "Unknown"%string)
  /\ (Responsible_Party row = "Unknown"%string
      <-> VAULT_MAPPING !! Vault_Pair row = None).
Proof.
  cbv zeta. unfold vault_row.
  cbn [Incentive_Type Responsible_Party Vault_Pair].
  destruct (VAULT_MAPPING !! _) as [info|] eqn:E;
    cbn [default from_option id]; unfold Datatypes.id.
  - destruct (vault_mapping_types _ _ E) as [[Ht | Ht] Hteam]; rewrite Ht;
      repeat split; auto; try discriminate; try contradiction.
  - repeat split; auto.
Qed.

(** ** The vault tab *)

Lemma column_rows {Row A} (get : Row -> A) (df : list Row) :
  df <> [] -> column get df = Some (map get df).
Proof. destruct df; [congruence | reflexivity]. Qed.

Lemma select_map {Row A} (get : Row -> A) (f : A -> bool) (df : list Row) :
  select (map f (map get df)) df = List.filter (fun row => f (get row)) df.
Proof.
  induction df as [|row df IH]; cbn [map select List.filter];
    [reflexivity|].
  now rewrite IH.
Qed.

Lemma unique_In (xs : list string) (x : string) : In x (unique xs) <-> In x xs.
Proof.
  induction xs as [|y xs IH]; cbn [unique In]; [reflexivity|].
  rewrite filter_In, IH, negb_true_iff, String.eqb_neq.
  destruct (String.eqb_spec y x); [subst|]; intuition congruence.
Qed.

Lemma filtered_df_all (vault_df : list VaultRow) :
  vault_df <> [] ->
  exists team_filter,
    default_team_filter vault_df = Some team_filter
    /\ filtered_df team_filter vault_df = Some vault_df.
Proof.
  intros Hne. exists (unique (map Responsible_Party vault_df)).
  unfold default_team_filter, filtered_df.
  rewrite (column_rows _ _ Hne). cbn [mbind option_bind].
  split; [reflexivity|]. f_equal. rewrite select_map.
  apply forallb_filter_id. apply forallb_forall.
  intros row Hin. apply str_in_spec, unique_In. now apply in_map.
Qed.

(** X17.  On a vault frame with at least one row, the default team filter
    (every team of the frame) filters nothing out.  A row of
    [process_vault_data] is then listed among the supply rewards exactly
    when its supply USD delta exceeds 100 and among the borrow discounts
    exactly when its absolute borrow USD delta exceeds 100; a row listed in
    neither table has a supply USD delta below -100 and an absolute borrow
    USD delta of at most 100. *)
Theorem vault_tab_tables (vaults : list Vault) (row : VaultRow) :
  let vault_df := process_vault_data vaults in
  vault_df <> [] ->
  (exists team_filter,
     default_team_filter vault_df = Some team_filter
     /\ filtered_df team_filter vault_df = Some vault_df)
  /\ (In row (supply_df vault_df)
      <-> In row vault_df /\ 100 < Supply_Delta_USD row)
  /\ (In row (borrow_df vault_df)
      <-> In row vault_df /\ 100 < Qabs (Borrow_Delta_USD row))
  /\ (In row vault_df ->
      ~ In row (supply_df vault_df) -> ~ In row (borrow_df vault_df) ->
      Supply_Delta_USD row < -(100)
      /\ Qabs (Borrow_Delta_USD row) <= 100).
Proof.
  intros vault_df Hne.
  assert (Hs : In row (supply_df vault_df)
               <-> In row vault_df /\ 100 < Supply_Delta_USD row).
  { unfold supply_df. now rewrite select_map, filter_In, Qgtb_spec. }
  assert (Hb : In row (borrow_df vault_df)
               <-> In row vault_df /\ 100 < Qabs (Borrow_Delta_USD row)).
  { unfold borrow_df. now rewrite select_map, filter_In, Qgtb_spec. }
  split; [now apply filtered_df_all|].
  repeat (split; [assumption|]).
  intros Hin Hns Hnb.
  assert (Hle : Supply_Delta_USD row <= 100).
  { apply Qnot_lt_le. intros C. apply Hns, Hs. auto. }
  assert (Hbl : Qabs (Borrow_Delta_USD row) <= 100).
  { apply Qnot_lt_le. intros C. apply Hnb, Hb. auto. }
  split; [|exact Hbl].
  unfold vault_df in Hin. rewrite process_vault_data_filter in Hin.
  apply in_map_iff in Hin as (vault & <- & Hv).
  apply filter_In in Hv as [_ Hv].
  apply vault_above_floor_spec in Hv.
  cbn [vault_row Supply_Delta_USD Borrow_Delta_USD] in *.
  destruct Hv as [Hv | Hv]; [|exfalso; exact (Qlt_not_le _ _ Hv Hbl)].
  apply Qnot_le_lt. intros C.
  apply (Qlt_not_le _ _ Hv). apply Qabs_Qle_condition. split; assumption.
Qed.

Lemma vault_tab_tables_witness :
  let vault :=
    {| id := 9;
       supplyToken := {| symbol := "WSOL"; name := "Wrapped SOL";
                         decimals := 9; price := 100 # 1 |};
       borrowToken := {| symbol := "USDC"; name := "USD Coin";
                         decimals := 6; price := 1 |};
       totalSupply := 0; totalSupplyLiquidity := 5000000000 # 1;
       totalBorrow := 0; totalBorrowLiquidity := 0 |} in
  process_vault_data [vault] = [vault_row vault]
  /\ supply_df (process_vault_data [vault]) = []
  /\ borrow_df (process_vault_data [vault]) = []
  /\ Supply_Delta_USD (vault_row vault) < -(100).
Proof.
  intros vault. split; [reflexivity|]. split; [reflexivity|].
  split; [reflexivity|].
  apply (vault_tab_tables [vault] (vault_row vault)).
  - vm_compute. discriminate.
  - left. reflexivity.
  - intros H. vm_compute in H. exact H.
  - intros H. vm_compute in H. exact H.
Defined.

(** ** The priority list *)

Lemma priorities_entries vault_df lending_df (p : Priority) :
  In p (priorities vault_df lending_df) ->
  (exists row, In row vault_df /\ In p (vault_supply_priority row))
  \/ (exists row, In row vault_df /\ In p (vault_borrow_priority row))
  \/ (exists row, In row lending_df /\ In p (lending_priority row)).
Proof.
  unfold priorities. rewrite in_app_iff, !in_flat_map.
  intros [(row & Hrow & Hp) | (row & Hrow & Hp)].
  - apply in_app_iff in Hp as [Hp | Hp]; eauto.
  - eauto.
Qed.

Lemma Qgtb_mono (x lo hi : Q) :
  lo <= hi -> Qgtb x hi = true -> Qgtb x lo = true.
Proof.
  rewrite !Qgtb_spec. intros Hle Hlt. eapply Qle_lt_trans; eassumption.
Qed.

(** X18.  Every entry of the priority list is tagged "High" or "Medium"
    and has one of the three types; a supply or lending entry shows an
    amount above 100,000 and is "High" exactly above 300,000; a borrow entry
    shows a non-negative amount above 50,000.  A vault row contributes at
    most two entries and a lending row at most one. *)
Theorem priorities_invariant vault_df lending_df :
  Forall (fun p =>
            (p_Priority p = "High"%string \/ p_Priority p = "Medium"%string)
            /\ ((p_Type p = "Vault Borrow"%string /\ 50000 < p_Amount_USD p
                 /\ (p_Priority p = "High"%string <-> 100000 < p_Amount_USD p))
                \/ ((p_Type p = "Vault Supply"%string
                     \/ p_Type p = "Lending"%string)
                    /\ 100000 < p_Amount_USD p
                    /\ (p_Priority p = "High"%string
                        <-> 300000 < p_Amount_USD p))))
         (priorities vault_df lending_df)
  /\ (List.length (priorities vault_df lending_df)
      <= 2 * List.length vault_df + List.length lending_df)%nat.
Proof.
  split.
  - apply List.Forall_forall. intros p Hp.
    assert (Htier : forall x lo hi,
              Qgtb x lo = true ->
              ((if Qgtb x hi then "High" else "Medium")%string
               = "High"%string
               \/ (if Qgtb x hi then "High" else "Medium")%string
                  = "Medium"%string)
              /\ lo < x
              /\ ((if Qgtb x hi then "High" else "Medium")%string
                  = "High"%string <-> hi < x)).
    { intros x lo hi Hlo. rewrite <- (Qgtb_spec x hi).
      apply Qgtb_spec in Hlo.
      destruct (Qgtb x hi); repeat split; auto; discriminate. }
    apply priorities_entries in Hp
      as [(row & _ & Hp) | [(row & _ & Hp) | (row & _ & Hp)]].
    + unfold vault_supply_priority in Hp.
      destruct (Qgtb (Supply_Delta_USD row) 100000) eqn:E; [|contradiction].
      destruct Hp as [<- | []]. cbn [p_Priority p_Type p_Amount_USD].
      destruct (Htier _ _ 300000 E) as (H1 & H2 & H3). auto 10.
    + unfold vault_borrow_priority in Hp.
      destruct (Qgtb (Qabs (Borrow_Delta_USD row)) 50000) eqn:E;
        [|contradiction].
      destruct Hp as [<- | []]. cbn [p_Priority p_Type p_Amount_USD].
      destruct (Htier _ _ 100000 E) as (H1 & H2 & H3). auto 10.
    + unfold lending_priority in Hp.
      destruct (Qgtb (Rewards_USD row) 100000) eqn:E; [|contradiction].
      destruct Hp as [<- | []]. cbn [p_Priority p_Type p_Amount_USD].
      destruct (Htier _ _ 300000 E) as (H1 & H2 & H3). auto 10.
  - unfold priorities. rewrite length_app.
    assert (Hv : (List.length
                    (flat_map (fun row => vault_supply_priority row
                                          ++ vault_borrow_priority row)
                              vault_df)
                  <= 2 * List.length vault_df)%nat).
    { induction vault_df as [|row rest IH]; cbn [flat_map]; [cbn; lia|].
      rewrite !length_app. cbn [List.length].
      assert (Hs : (List.length (vault_supply_priority row) <= 1)%nat).
      { unfold vault_supply_priority.
        destruct (Qgtb (Supply_Delta_USD row) 100000); cbn; lia. }
      assert (Hb : (List.length (vault_borrow_priority row) <= 1)%nat).
      { unfold vault_borrow_priority.
        destruct (Qgtb (Qabs (Borrow_Delta_USD row)) 50000); cbn; lia. }
      lia. }
    assert (Hl : (List.length (flat_map lending_priority lending_df)
                  <= List.length lending_df)%nat).
    { induction lending_df as [|row rest IH]; cbn [flat_map]; [cbn; lia|].
      rewrite length_app. cbn [List.length].
      assert (Hl : (List.length (lending_priority row) <= 1)%nat).
      { unfold lending_priority.
        destruct (Qgtb (Rewards_USD row) 100000); cbn; lia. }
      lia. }
    lia.
Qed.

(** X19.  The supply side is compared with its sign: a row whose supply USD
    delta is at most 100,000, a negative one in particular, has no supply
    entry.  The borrow side is compared in absolute value: two rows whose
    borrow USD deltas are opposite get the same tier. *)
Theorem priorities_sign (row row' : VaultRow) :
  (Supply_Delta_USD row <= 100000 -> vault_supply_priority row = [])
  /\ (Borrow_Delta_USD row' == - Borrow_Delta_USD row ->
      map p_Priority (vault_borrow_priority row')
      = map p_Priority (vault_borrow_priority row)).
Proof.
  split.
  - intros H. unfold vault_supply_priority.
    apply Qgtb_false in H. now rewrite H.
  - intros H. unfold vault_borrow_priority.
    assert (E : Qabs (Borrow_Delta_USD row') == Qabs (Borrow_Delta_USD row))
      by (rewrite H; apply Qabs_opp).
    assert (Hc : forall t,
              Qgtb (Qabs (Borrow_Delta_USD row')) t
              = Qgtb (Qabs (Borrow_Delta_USD row)) t).
    { intros t. unfold Qgtb. f_equal.
      destruct (Qle_bool (Qabs (Borrow_Delta_USD row)) t) eqn:E1.
      - apply Qle_bool_iff. rewrite E. now apply Qle_bool_iff.
      - destruct (Qle_bool (Qabs (Borrow_Delta_USD row')) t) eqn:E2;
          [|reflexivity].
        apply Qle_bool_iff in E2. rewrite E in E2.
        apply Qle_bool_iff in E2. congruence. }
    rewrite !Hc.
    destruct (Qgtb (Qabs (Borrow_Delta_USD row)) 50000); reflexivity.
Qed.

Lemma priorities_sign_witness :
  vault_supply_priority (C8_row (7 # 1)) = []
  /\ map p_Priority (vault_borrow_priority (C8_row (-(70000 # 1))))
     = map p_Priority (vault_borrow_priority (C8_row (70000 # 1))).
Proof.
  split.
  - apply (priorities_sign (C8_row (7 # 1)) (C8_row (7 # 1))).
    discriminate.
  - apply (priorities_sign (C8_row (70000 # 1)) (C8_row (-(70000 # 1)))).
    reflexivity.
Defined.

(** ** Alerts and priorities *)

Lemma high_vaults_rows (vault_df : list VaultRow) :
  vault_df <> [] ->
  high_vaults vault_df
  = Some (List.filter (fun row => Qgtb (Supply_Delta_USD row) 300000)
                      vault_df).
Proof.
  intros Hne. unfold high_vaults. rewrite (column_rows _ _ Hne).
  cbn [mbind option_bind]. now rewrite select_map.
Qed.

Lemma high_borrows_rows (vault_df : list VaultRow) :
  vault_df <> [] ->
  high_borrows vault_df
  = Some (List.filter (fun row => Qgtb (Qabs (Borrow_Delta_USD row)) 100000)
                      vault_df).
Proof.
  intros Hne. unfold high_borrows. rewrite (column_rows _ _ Hne).
  cbn [mbind option_bind].
  now rewrite (select_map Borrow_Delta_USD (fun x => Qgtb (Qabs x) 100000)).
Qed.

Lemma high_lending_rows (lending_df : list LendingRow) :
  lending_df <> [] ->
  high_lending lending_df
  = Some (List.filter (fun row => Qgtb (Rewards_USD row) 300000)
                      lending_df).
Proof.
  intros Hne. unfold high_lending. rewrite (column_rows _ _ Hne).
  cbn [mbind option_bind]. now rewrite select_map.
Qed.

Lemma high_count_vault (row : VaultRow) :
  List.length (List.filter is_high
                 (vault_supply_priority row ++ vault_borrow_priority row))
  = (List.length
       (List.filter (fun row => Qgtb (Supply_Delta_USD row) 300000) [row])
     + List.length
         (List.filter (fun row => Qgtb (Qabs (Borrow_Delta_USD row)) 100000)
                      [row]))%nat.
Proof.
  unfold vault_supply_priority, vault_borrow_priority. cbn [List.filter].
  pose proof (Qgtb_mono (Supply_Delta_USD row) 100000 300000
                ltac:(discriminate)) as Hs.
  pose proof (Qgtb_mono (Qabs (Borrow_Delta_USD row)) 50000 100000
                ltac:(discriminate)) as Hb.
  destruct (Qgtb (Supply_Delta_USD row) 300000);
    destruct (Qgtb (Qabs (Borrow_Delta_USD row)) 100000);
    try rewrite (Hs eq_refl); try rewrite (Hb eq_refl);
    try reflexivity;
    destruct (Qgtb (Supply_Delta_USD row) 100000);
    destruct (Qgtb (Qabs (Borrow_Delta_USD row)) 50000); reflexivity.
Qed.

Lemma high_count_lending (row : LendingRow) :
  List.length (List.filter is_high (lending_priority row))
  = List.length
      (List.filter (fun row => Qgtb (Rewards_USD row) 300000) [row]).
Proof.
  unfold lending_priority. cbn [List.filter].
  pose proof (Qgtb_mono (Rewards_USD row) 100000 300000
                ltac:(discriminate)) as Hs.
  destruct (Qgtb (Rewards_USD row) 300000);
    [rewrite (Hs eq_refl); reflexivity|].
  destruct (Qgtb (Rewards_USD row) 100000); reflexivity.
Qed.

Lemma filter_cons_length {A} (f : A -> bool) (x : A) (l : list A) :
  List.length (List.filter f (x :: l))
  = (List.length (List.filter f [x]) + List.length (List.filter f l))%nat.
Proof. cbn [List.filter]. destruct (f x); reflexivity. Qed.

Lemma high_count vault_df lending_df :
  List.length (List.filter is_high (priorities vault_df lending_df))
  = (List.length
       (List.filter (fun row => Qgtb (Supply_Delta_USD row) 300000) vault_df)
     + List.length
         (List.filter (fun row => Qgtb (Qabs (Borrow_Delta_USD row)) 100000)
                      vault_df)
     + List.length
         (List.filter (fun row => Qgtb (Rewards_USD row) 300000)
                      lending_df))%nat.
Proof.
  unfold priorities. rewrite List.filter_app, length_app.
  assert (Hv : List.length
                 (List.filter is_high
                    (flat_map (fun row => vault_supply_priority row
                                          ++ vault_borrow_priority row)
                              vault_df))
               = (List.length
                    (List.filter
                       (fun row => Qgtb (Supply_Delta_USD row) 300000)
                       vault_df)
                  + List.length
                      (List.filter
                         (fun row => Qgtb (Qabs (Borrow_Delta_USD row)) 100000)
                         vault_df))%nat).
  { induction vault_df as [|row rest IH]; [reflexivity|].
    cbn [flat_map]. rewrite List.filter_app, length_app, IH.
    rewrite high_count_vault.
    rewrite (filter_cons_length
               (fun r => Qgtb (Supply_Delta_USD r) 300000) row rest).
    rewrite (filter_cons_length
               (fun r => Qgtb (Qabs (Borrow_Delta_USD r)) 100000) row rest).
    lia. }
  assert (Hl : List.length
                 (List.filter is_high (flat_map lending_priority lending_df))
               = List.length
                   (List.filter (fun row => Qgtb (Rewards_USD row) 300000)
                                lending_df)).
  { induction lending_df as [|row rest IH]; [reflexivity|].
    cbn [flat_map]. rewrite List.filter_app, length_app, IH.
    rewrite high_count_lending.
    now rewrite (filter_cons_length
                   (fun r => Qgtb (Rewards_USD r) 300000) row rest). }
  lia.
Qed.

(** X20.  On frames with at least one row each, the alerts of the overview
    and the priority list of the analytics tab agree: the number of alert
    rows (supply above 300,000, absolute borrow above 100,000, lending above
    300,000) is the number of "High" entries of the priority list, so
    "No urgent rebalancing needed" is shown exactly when the priority list
    has no "High" entry. *)
Theorem alerts_match_priorities vault_df lending_df :
  vault_df <> [] -> lending_df <> [] ->
  exists alert_vaults alert_borrows alert_lending urgent,
    high_vaults vault_df = Some alert_vaults
    /\ high_borrows vault_df = Some alert_borrows
    /\ high_lending lending_df = Some alert_lending
    /\ no_urgent_rebalancing vault_df lending_df = Some urgent
    /\ List.length (List.filter is_high (priorities vault_df lending_df))
       = (List.length alert_vaults + List.length alert_borrows
          + List.length alert_lending)%nat
    /\ (urgent = true
        <-> Forall (fun p => p_Priority p <> "High"%string)
                   (priorities vault_df lending_df)).
Proof.
  intros Hv Hl. unfold no_urgent_rebalancing.
  rewrite (high_vaults_rows _ Hv), (high_borrows_rows _ Hv),
    (high_lending_rows _ Hl).
  cbn [mbind option_bind].
  do 4 eexists. do 4 (split; [reflexivity|]).
  split; [apply high_count|].
  rewrite !andb_true_iff, !Nat.eqb_eq.
  pose proof (high_count vault_df lending_df) as Hc.
  assert (Hnone : List.filter is_high (priorities vault_df lending_df) = []
                  <-> Forall (fun p => p_Priority p <> "High"%string)
                             (priorities vault_df lending_df)).
  { generalize (priorities vault_df lending_df). intros l.
    induction l as [|p l IH]; cbn [List.filter].
    - split; [constructor | reflexivity].
    - rewrite List.Forall_cons_iff, <- IH. unfold is_high.
      destruct (String.eqb (p_Priority p) "High") eqn:E.
      + apply String.eqb_eq in E. split; [discriminate|].
        intros [C _]. contradiction.
      + apply String.eqb_neq in E. tauto. }
  rewrite <- Hnone. split.
  - intros [[H1 H2] H3]. apply length_zero_iff_nil. lia.
  - intros H. rewrite H in Hc. cbn [List.length] in Hc. lia.
Qed.

Lemma alerts_match_priorities_witness :
  exists alert_vaults alert_borrows alert_lending urgent,
    high_vaults [C8_row (70000 # 1)] = Some alert_vaults
    /\ high_borrows [C8_row (70000 # 1)] = Some alert_borrows
    /\ high_lending [sample_lending_row] = Some alert_lending
    /\ no_urgent_rebalancing [C8_row (70000 # 1)] [sample_lending_row]
       = Some urgent
    /\ List.length
         (List.filter is_high
            (priorities [C8_row (70000 # 1)] [sample_lending_row]))
       = (List.length alert_vaults + List.length alert_borrows
          + List.length alert_lending)%nat
    /\ (urgent = true
        <-> Forall (fun p => p_Priority p <> "High"%string)
                   (priorities [C8_row (70000 # 1)] [sample_lending_row])).
Proof.
  apply (alerts_match_priorities [C8_row (70000 # 1)] [sample_lending_row]);
    discriminate.
Defined.

(** ** The headline borrow figure *)

Lemma Qsum_abs_bound (xs : list Q) : Qabs (Qsum xs) <= Qsum (map Qabs xs).
Proof.
  induction xs as [|x xs IH]; cbn [Qsum fold_right map].
  - discriminate.
  - eapply Qle_trans; [apply Qabs_triangle|].
    apply Qplus_le_compat; [apply Qle_refl | exact IH].
Qed.

Lemma Qsum_nonneg (xs : list Q) :
  Forall (fun x => 0 <= x) xs ->
  0 <= Qsum xs /\ Qsum (map Qabs xs) == Qsum xs.
Proof.
  induction 1 as [|x xs Hx _ [IH1 IH2]]; cbn [Qsum fold_right map].
  - split; [discriminate | reflexivity].
  - fold (Qsum xs). fold (Qsum (map Qabs xs)). split.
    + replace 0 with (0 + 0) by reflexivity.
      apply Qplus_le_compat; assumption.
    + rewrite IH2, (Qabs_pos x Hx). reflexivity.
Qed.

(** X21.  On a vault frame with at least one row, the headline
    "Vault Borrow" figure is the absolute value of the sum of the borrow
    USD deltas, so deltas of opposite sign cancel in it: it is at most the
    sum of their absolute values, and equal to it when no delta is
    negative. *)
Theorem total_vault_borrow_bound (vault_df : list VaultRow) :
  vault_df <> [] ->
  exists total,
    total_vault_borrow vault_df = Some total
    /\ total <= Qsum (map (fun row => Qabs (Borrow_Delta_USD row)) vault_df)
    /\ (Forall (fun row => 0 <= Borrow_Delta_USD row) vault_df ->
        total == Qsum (map (fun row => Qabs (Borrow_Delta_USD row)) vault_df)).
Proof.
  intros Hne. unfold total_vault_borrow. rewrite (column_rows _ _ Hne).
  cbn [mbind option_bind]. eexists. split; [reflexivity|].
  rewrite <- (map_map Borrow_Delta_USD Qabs). split.
  - apply Qsum_abs_bound.
  - intros H.
    destruct (Qsum_nonneg (map Borrow_Delta_USD vault_df)) as [H1 H2].
    { apply List.Forall_map. exact H. }
    rewrite H2. apply Qabs_pos. exact H1.
Qed.

Lemma total_vault_borrow_bound_witness :
  exists total,
    total_vault_borrow [C8_row (150000 # 1); C8_row (20 # 1)] = Some total
    /\ total == 150020 # 1.
Proof.
  destruct (total_vault_borrow_bound [C8_row (150000 # 1); C8_row (20 # 1)])
    as (total & Ht & _ & Heq); [discriminate|].
  exists total. split; [exact Ht|].
  rewrite Heq; [reflexivity | repeat constructor; discriminate].
Defined.

(** ** A vault frame without rows *)



(** ** Pending rewards by token *)

Lemma pending_add_ok key delta pending :
  0 < delta -> pending_ok pending -> pending_ok (pending_add key delta pending).
Proof.
  intros Hd [Hk Hn]. unfold pending_add. split.
  - rewrite <- Hk, map_map. apply map_ext. intros [k a]. cbn.
    now destruct (String.eqb k key).
  - apply List.Forall_map. eapply List.Forall_impl; [|exact Hn].
    intros [k a] Ha. cbn in *. destruct (String.eqb k key); cbn; [|exact Ha].
    replace 0 with (0 + 0) by reflexivity.
    apply Qplus_le_compat; [exact Ha | now apply Qlt_le_weak].
Qed.

Lemma pending_vault_ok pending vault :
  pending_ok pending -> pending_ok (pending_vault pending vault).
Proof.
  intros H. unfold pending_vault.
  assert (H1 : pending_ok
                 (if String.eqb (symbol (supplyToken vault)) "WSOL"
                  then if Qgtb (supply_delta_amount vault) 0
                       then pending_add "SOL" (supply_delta_amount vault)
                                        pending
                       else pending
                  else pending)).
  { destruct (String.eqb _ _); [|exact H].
    destruct (Qgtb (supply_delta_amount vault) 0) eqn:E; [|exact H].
    apply pending_add_ok; [now apply Qgtb_spec | exact H]. }
  revert H1.
  generalize (if String.eqb (symbol (supplyToken vault)) "WSOL"
              then if Qgtb (supply_delta_amount vault) 0
                   then pending_add "SOL" (supply_delta_amount vault) pending
                   else pending
              else pending).
  intros p1 H1.
  destruct (Qgtb (borrow_delta_amount vault) 0) eqn:E; [|exact H1].
  apply Qgtb_spec in E.
  repeat (destruct (String.eqb _ _);
          [apply pending_add_ok; assumption|]).
  exact H1.
Qed.

Lemma pending_lending_ok pending token :
  pending_ok pending -> pending_ok (pending_lending pending token).
Proof.
  intros H. unfold pending_lending.
  destruct (Qgtb (rewards_amount token) 0) eqn:E; [|exact H].
  apply Qgtb_spec in E.
  repeat (destruct (String.eqb _ _);
          [apply pending_add_ok; assumption|]).
  exact H.
Qed.

Lemma pending_rewards_ok vaults lending_tokens :
  pending_ok (pending_rewards vaults lending_tokens).
Proof.
  unfold pending_rewards.
  assert (Hv : forall init,
            pending_ok init -> pending_ok (fold_left pending_vault vaults init)).
  { induction vaults as [|v vs IH]; intros init Hi; cbn [fold_left];
      [exact Hi|]. apply IH. now apply pending_vault_ok. }
  assert (Hl : forall init,
            pending_ok init ->
            pending_ok (fold_left pending_lending lending_tokens init)).
  { induction lending_tokens as [|t ts IH]; intros init Hi; cbn [fold_left];
      [exact Hi|]. apply IH. now apply pending_lending_ok. }
  apply Hl, Hv. split; [reflexivity|]. repeat constructor; discriminate.
Qed.

Lemma summary_rows_spec sol_price (items : list (string * Q)) :
  map s_Token (summary_rows sol_price items)
  = map fst (List.filter (fun kv => Qgtb (snd kv) 0) items)
  /\ Forall (fun r =>
               0 < s_Amount_Required r
               /\ In (s_Token r, s_Amount_Required r) items
               /\ (s_Token r = "SOL"%string ->
                   s_USD_Value r == s_Amount_Required r * sol_price)
               /\ (s_Token r <> "SOL"%string ->
                   s_USD_Value r == s_Amount_Required r))
            (summary_rows sol_price items).
Proof.
  induction items as [|[token amount] rest [IH1 IH2]];
    cbn [summary_rows List.filter map snd].
  - split; constructor.
  - destruct (Qgtb amount 0) eqn:E; cbn [map s_Token fst].
    + split; [now rewrite IH1|].
      constructor.
      * cbn [s_Token s_Amount_Required s_USD_Value].
        split; [now apply Qgtb_spec|]. split; [now left|].
        destruct (String.eqb token "SOL") eqn:Es.
        -- split; [reflexivity|]. apply String.eqb_eq in Es. contradiction.
        -- apply String.eqb_neq in Es. split; [contradiction|].
           intros _. ring.
      * eapply List.Forall_impl; [|exact IH2].
        intros r (H1 & H2 & H3). split; [exact H1|].
        split; [now right | exact H3].
    + split; [exact IH1|].
      eapply List.Forall_impl; [|exact IH2].
      intros r (H1 & H2 & H3). split; [exact H1|].
      split; [now right | exact H3].
Qed.

(** X22.  Whatever the vaults and lending tokens, the pending-rewards
    dictionary keeps its six keys and no amount in it is negative: a delta
    that is not positive is never netted against the others.  The summary
    lists each token at most once, only tokens of the dictionary and only
    with a positive amount; SOL is valued at the SOL price and every other
    token at 1 USD apiece. *)
Theorem pending_summary_invariant (vaults : list Vault)
  (lending_tokens : list Lending) :
  map fst (pending_rewards vaults lending_tokens) = reward_tokens
  /\ Forall (fun kv => 0 <= snd kv) (pending_rewards vaults lending_tokens)
  /\ NoDup (map s_Token (summary_data vaults lending_tokens))
  /\ Forall (fun r =>
               0 < s_Amount_Required r
               /\ In (s_Token r) reward_tokens
               /\ In (s_Token r, s_Amount_Required r)
                     (pending_rewards vaults lending_tokens)
               /\ (s_Token r = "SOL"%string ->
                   s_USD_Value r
                   == s_Amount_Required r * summary_sol_price vaults)
               /\ (s_Token r <> "SOL"%string ->
                   s_USD_Value r == s_Amount_Required r))
            (summary_data vaults lending_tokens).
Proof.
  destruct (pending_rewards_ok vaults lending_tokens) as [Hk Hn].
  destruct (summary_rows_spec (summary_sol_price vaults)
              (pending_rewards vaults lending_tokens)) as [Ht Hr].
  split; [exact Hk|]. split; [exact Hn|]. split.
  - unfold summary_data. rewrite Ht.
    assert (Hnd : List.NoDup (map fst (pending_rewards vaults lending_tokens))).
    { rewrite Hk. repeat constructor; cbn; intuition discriminate. }
    revert Hnd. generalize (pending_rewards vaults lending_tokens).
    intros l. induction l as [|kv l IH]; cbn [List.filter map].
    + intros _. constructor.
    + intros Hnd. inversion Hnd as [|x xs Hx Hxs]; subst.
      destruct (Qgtb (snd kv) 0); cbn [map]; [|now apply IH].
      apply NoDup_cons. split; [|now apply IH].
      intros C. apply Hx. apply list_elem_of_In in C.
      apply in_map_iff in C as (kv' & E & Hin).
      apply filter_In in Hin as [Hin _].
      apply in_map_iff. eauto.
  - unfold summary_data. eapply List.Forall_impl; [|exact Hr].
    intros r (H1 & H2 & H3 & H4). repeat split; auto.
    rewrite <- Hk. apply in_map_iff. exists (s_Token r, s_Amount_Required r).
    split; [reflexivity | exact H2].
Qed.

Lemma fold_left_skip {A B} (f : A -> B -> A) (before after : list B) (x : B) :
  (forall a, f a x = a) ->
  forall init,
    fold_left f (before ++ x :: after) init
    = fold_left f (before ++ after) init.
Proof.
  intros Hx. induction before as [|b before IH]; intros init;
    cbn [app fold_left]; [now rewrite Hx | apply IH].
Qed.

(** X23.  A vault adds nothing to the pending rewards unless its supply
    token is WSOL with a positive supply delta, or its borrow delta is
    positive and its borrow token is USDC, USDG, EURC or SOL; a lending
    token adds nothing unless its delta is positive and its symbol is USDC,
    USDG, USDT, EURC or USDS.  The summary is then the same as if the vault
    or the lending token were not in the list. *)
Theorem pending_rewards_ignores (vault : Vault) (token : Lending) :
  (symbol (supplyToken vault) <> "WSOL"%string
   \/ supply_delta_amount vault <= 0) ->
  (~ In (symbol (borrowToken vault)) ["USDC"; "USDG"; "EURC"; "SOL"]%string
   \/ borrow_delta_amount vault <= 0) ->
  (~ In (symbol (asset token))
        ["USDC"; "USDG"; "USDT"; "EURC"; "USDS"]%string
   \/ rewards_amount token <= 0) ->
  forall before after before' after',
    pending_rewards (before ++ vault :: after) (before' ++ token :: after')
    = pending_rewards (before ++ after) (before' ++ after')
    /\ summary_rows (summary_sol_price (before ++ after))
         (pending_rewards (before ++ vault :: after)
                          (before' ++ token :: after'))
       = summary_data (before ++ after) (before' ++ after').
Proof.
  intros Hs Hb Hl before after before' after'.
  assert (Hv : forall p, pending_vault p vault = p).
  { intros p. unfold pending_vault.
    assert (E1 : (if String.eqb (symbol (supplyToken vault)) "WSOL"
                  then if Qgtb (supply_delta_amount vault) 0
                       then pending_add "SOL" (supply_delta_amount vault) p
                       else p
                  else p) = p).
    { destruct Hs as [Hs | Hs].
      - apply String.eqb_neq in Hs. now rewrite Hs.
      - apply Qgtb_false in Hs. rewrite Hs.
        now destruct (String.eqb _ _). }
    rewrite E1. clear E1. destruct Hb as [Hb | Hb].
    - destruct (Qgtb (borrow_delta_amount vault) 0); [|reflexivity].
      repeat match goal with
             | |- context [String.eqb ?a ?b] =>
                 let E := fresh "E" in
                 destruct (String.eqb a b) eqn:E;
                 [apply String.eqb_eq in E; exfalso; apply Hb;
                  rewrite E; cbn; tauto|]
             end.
      reflexivity.
    - apply Qgtb_false in Hb. now rewrite Hb. }
  assert (Ht : forall p, pending_lending p token = p).
  { intros p. unfold pending_lending. destruct Hl as [Hl | Hl].
    - destruct (Qgtb (rewards_amount token) 0); [|reflexivity].
      repeat match goal with
             | |- context [String.eqb ?a ?b] =>
                 let E := fresh "E" in
                 destruct (String.eqb a b) eqn:E;
                 [apply String.eqb_eq in E; exfalso; apply Hl;
                  rewrite E; cbn; tauto|]
             end.
      reflexivity.
    - apply Qgtb_false in Hl. now rewrite Hl. }
  assert (E : pending_rewards (before ++ vault :: after)
                (before' ++ token :: after')
              = pending_rewards (before ++ after) (before' ++ after')).
  { unfold pending_rewards.
    rewrite (fold_left_skip pending_vault before after vault Hv).
    apply (fold_left_skip pending_lending before' after' token Ht). }
  split; [exact E|]. unfold summary_data. now rewrite E.
Qed.

Lemma pending_rewards_ignores_witness :
  pending_rewards [C9_vault; C2_vault] []
  = pending_rewards [C2_vault] [].
Proof.
  refine (proj1 (pending_rewards_ignores C9_vault
            {| l_id := 1;
               asset := {| symbol := "SOL"; name := "Solana";
                           decimals := 9; price := 150 # 1 |};
               totalAssets := 9000000000 # 1;
               liquiditySupplyData_supply := 0 |}
            _ _ _ [] [C2_vault] [] [])).
  - left. discriminate.
  - right. discriminate.
  - left. cbn. intuition discriminate.
Defined.

(** ** The treasury balance *)

Lemma process_balances_acc sol_price prices tokens_meta accounts :
  forall balances total_value,
  exists rows,
    fst (process_balances sol_price prices tokens_meta accounts balances
           total_value) = balances ++ rows
    /\ snd (process_balances sol_price prices tokens_meta accounts balances
              total_value)
       == total_value + Qsum (map b_Value_USD rows)
    /\ Forall (fun row =>
                 0 < b_Amount row
                 /\ b_Value_USD row
                    = balance_value sol_price prices (b_Token row)
                                    (b_Amount row))
              rows
    /\ (List.length rows <= List.length accounts)%nat.
Proof.
  induction accounts as [|account rest IH]; intros balances total_value;
    cbn [process_balances].
  - exists []. rewrite app_nil_r. cbn [fst snd map Qsum fold_right].
    split; [reflexivity|]. split; [ring|]. split; [constructor | cbn; lia].
  - cbv zeta.
    destruct (Qgtb (default 0 (a_amount account)
                    / pow10 (default 6%Z (a_token_decimals account))) 0)
      eqn:E.
    + match goal with
      | |- context [process_balances _ _ _ rest (balances ++ [?r]) ?t] =>
          destruct (IH (balances ++ [r]) t) as (rows & H1 & H2 & H3 & H4);
          exists (r :: rows)
      end.
      rewrite H1, <- app_assoc. split; [reflexivity|].
      split; [rewrite H2; unfold Qsum; cbn [map fold_right b_Value_USD]; ring|].
      split; [|cbn [List.length]; lia].
      constructor; [|exact H3].
      cbn [b_Amount b_Value_USD b_Token]. split; [now apply Qgtb_spec|].
      reflexivity.
    + destruct (IH balances total_value) as (rows & H1 & H2 & H3 & H4).
      exists rows. split; [exact H1|]. split; [exact H2|].
      split; [exact H3|]. cbn [List.length]. lia.
Qed.

(** X24.  The treasury-balance loop lists only accounts with a positive
    amount, in order, and the total it accumulates is the sum of the listed
    USD values.  MNDE and JTO are valued at 0 whatever their price; a token
    that is in none of the fixed lists and has no price is listed with a
    value of 0; and when the SOL price and the extracted prices are not
    negative, no listed value is negative. *)
Theorem process_balances_total sol_price prices tokens_meta accounts :
  let result :=
    process_balances sol_price prices tokens_meta accounts [] 0 in
  snd result == Qsum (map b_Value_USD (fst result))
  /\ (List.length (fst result) <= List.length accounts)%nat
  /\ Forall (fun row =>
               0 < b_Amount row
               /\ (In (b_Token row) ["MNDE"; "JTO"]%string ->
                   b_Value_USD row == 0)
               /\ (~ In (b_Token row)
                        ["MNDE"; "JTO"; "USDC"; "USDT"; "USDS"; "USDG";
                         "SOL"; "WSOL"; "EURC"; "syrupUSDC"]%string ->
                   prices !! b_Token row = None -> b_Value_USD row == 0)
               /\ (0 <= sol_price ->
                   (forall sym p, prices !! sym = Some p -> 0 <= p) ->
                   0 <= b_Value_USD row))
            (fst result).
Proof.
  intros result.
  destruct (process_balances_acc sol_price prices tokens_meta accounts [] 0)
    as (rows & H1 & H2 & H3 & H4).
  fold result in H1, H2. cbn [app] in H1. rewrite H1.
  split; [rewrite H2; ring|]. split; [exact H4|].
  eapply List.Forall_impl; [|exact H3].
  intros row [Hpos Hval]. split; [exact Hpos|].
  rewrite Hval. unfold balance_value.
  assert (Hmul : forall p, 0 <= p -> 0 <= b_Amount row * p).
  { intros p Hp. apply Qmult_le_0_compat; [now apply Qlt_le_weak | exact Hp]. }
  split; [|split].
  - intros Hin. apply str_in_spec in Hin. now rewrite Hin.
  - intros Hnot Hnone.
    repeat match goal with
           | |- context [str_in ?a ?l] =>
               let E := fresh "E" in
               destruct (str_in a l) eqn:E;
               [apply str_in_spec in E; exfalso; apply Hnot;
                cbn in E |- *; tauto|]
           | |- context [String.eqb ?a ?b] =>
               let E := fresh "E" in
               destruct (String.eqb a b) eqn:E;
               [apply String.eqb_eq in E; exfalso; apply Hnot;
                rewrite E; cbn; tauto|]
           end.
    rewrite Hnone. cbn [default from_option]. ring.
  - intros Hsol Hprices.
    assert (Hd : forall sym d, 0 <= d -> 0 <= default d (prices !! sym)).
    { intros sym d Hd. destruct (prices !! sym) as [p|] eqn:E; cbn;
        [eapply Hprices; exact E | exact Hd]. }
    repeat match goal with
           | |- context [if ?b then _ else _] => destruct b
           end;
      try apply Hmul; try apply Hd; try discriminate; auto.
Qed.

Lemma process_balances_total_witness :
  let result :=
    process_balances (150 # 1) ∅
      (list_to_map [("mintJTO"%string, Some "JTO"%string);
                    ("mintX"%string, None)])
      [ {| a_token_address := Some "mintJTO"%string;
           a_amount := Some (5000000 # 1); a_token_decimals := None |};
        {| a_token_address := Some "mintX"%string;
           a_amount := Some 0; a_token_decimals := Some 9%Z |};
        {| a_token_address := None;
           a_amount := Some (7 # 1); a_token_decimals := Some 0%Z |} ]
      [] 0 in
  map b_Token (fst result) = ["JTO"; "UNKNOWN"]%string
  /\ Forall (fun row => 0 <= b_Value_USD row) (fst result).
Proof.
  intros result. split; [reflexivity|].
  eapply List.Forall_impl;
    [|apply (process_balances_total (150 # 1) ∅)].
  cbv beta. intros row (_ & _ & _ & H). apply H; [discriminate|].
  intros sym p E. rewrite lookup_empty in E. discriminate E.
Defined.

Lemma record_price_lookup prices token sym :
  sym <> ""%string ->
  record_price prices token !! sym
  = if bool_decide ((t ← token; bt_symbol t) = Some sym)
    then Some (default 0 (t ← token; bt_price t))
    else prices !! sym.
Proof.
  intros Hne. unfold record_price.
  destruct token as [[[s|] p]|]; cbn.
  - destruct s as [|c s].
    + rewrite bool_decide_eq_false_2; [reflexivity|]. congruence.
    + destruct (decide (String c s = sym)) as [<- | Hd].
      * rewrite bool_decide_eq_true_2 by reflexivity.
        now rewrite lookup_insert_eq.
      * rewrite bool_decide_eq_false_2 by congruence.
        now rewrite lookup_insert_ne.
  - now rewrite bool_decide_eq_false_2.
  - now rewrite bool_decide_eq_false_2.
Qed.

Lemma extract_prices_snoc vaults vault :
  extract_prices (vaults ++ [vault])
  = record_price (record_price (extract_prices vaults)
                               (bv_supplyToken vault))
                 (bv_borrowToken vault).
Proof. unfold extract_prices. now rewrite fold_left_app. Qed.

(** X25.  The extracted price table has an entry for a (non-empty) symbol
    exactly when some vault has it as the symbol of its supply or borrow
    token; the entry is the one of the last vault that has it, the borrow
    token winning over the supply token of the same vault, with a missing
    price counted as 0.  The SOL price used for the balance is the WSOL
    entry, else the SOL entry, else 150. *)
Theorem extract_prices_lookup (vaults : list BalanceVault) (sym : string) :
  sym <> ""%string ->
  (extract_prices vaults !! sym = None
   <-> Forall (fun vault => ~ mentions sym vault) vaults)
  /\ (forall vault,
        (t ← bv_borrowToken vault; bt_symbol t) = Some sym ->
        extract_prices (vaults ++ [vault]) !! sym
        = Some (default 0 (t ← bv_borrowToken vault; bt_price t)))
  /\ (forall vault,
        (t ← bv_supplyToken vault; bt_symbol t) = Some sym ->
        (t ← bv_borrowToken vault; bt_symbol t) <> Some sym ->
        extract_prices (vaults ++ [vault]) !! sym
        = Some (default 0 (t ← bv_supplyToken vault; bt_price t)))
  /\ (forall vault,
        ~ mentions sym vault ->
        extract_prices (vaults ++ [vault]) !! sym
        = extract_prices vaults !! sym)
  /\ balance_sol_price (extract_prices vaults)
     = match extract_prices vaults !! "WSOL"%string with
       | Some p => p
       | None => match extract_prices vaults !! "SOL"%string with
                 | Some p => p
                 | None => 150 # 1
                 end
       end.
Proof.
  intros Hne.
  assert (Hsnoc : forall vs vault,
            extract_prices (vs ++ [vault]) !! sym
            = if bool_decide ((t ← bv_borrowToken vault; bt_symbol t)
                              = Some sym)
              then Some (default 0 (t ← bv_borrowToken vault; bt_price t))
              else if bool_decide ((t ← bv_supplyToken vault; bt_symbol t)
                                   = Some sym)
                   then Some (default 0
                                (t ← bv_supplyToken vault; bt_price t))
                   else extract_prices vs !! sym).
  { intros vs vault. rewrite extract_prices_snoc.
    now rewrite !record_price_lookup by exact Hne. }
  split; [|split; [|split; [|split]]].
  - induction vaults as [|vault vs IH] using rev_ind.
    + split; [constructor | reflexivity].
    + rewrite Hsnoc, Forall_app, Forall_singleton, <- IH.
      unfold mentions.
      repeat case_bool_decide; intuition (try discriminate).
  - intros vault Hb. rewrite Hsnoc.
    now rewrite bool_decide_eq_true_2 by exact Hb.
  - intros vault Hs Hb. rewrite Hsnoc.
    rewrite bool_decide_eq_false_2 by exact Hb.
    now rewrite bool_decide_eq_true_2 by exact Hs.
  - intros vault Hm. rewrite Hsnoc. unfold mentions in Hm.
    rewrite !bool_decide_eq_false_2 by tauto. reflexivity.
  - unfold balance_sol_price.
    destruct (extract_prices vaults !! "WSOL"%string); [reflexivity|].
    now destruct (extract_prices vaults !! "SOL"%string).
Qed.

Lemma extract_prices_lookup_witness :
  extract_prices ([] ++ [sample_balance_vault]) !! "USDC"%string = Some 0
  /\ balance_sol_price (extract_prices [sample_balance_vault]) = 160 # 1.
Proof.
  split; [|reflexivity].
  destruct (extract_prices_lookup [] "USDC" ltac:(discriminate))
    as (_ & Hb & _).
  exact (Hb sample_balance_vault eq_refl).
Defined.

End DashboardExtras.
